(** * Steane-code QEC protocol: decoder table, encoding circuits, error scaling

    A shallow embedding of the algorithmic core of the repository:
    - [SyndromeDecoding]  : solution/segment_5_advanced/01_syndrome_decoding.py
    - [MultiRoundQec]     : solution/segment_2_core_qec/03_multi_round_qec.py
    - [ImprovedEncoding]  : solution/segment_4_optimization/01_improved_encoding.py
    - [ErrorScaling]      : solution/segment_3_noise_analysis/02_error_scaling.py
    - [SyndromeExtraction]: solution/segment_2_core_qec/02_syndrome_extraction.py
    - [MultiRoundKernels], [ScalingKernels], [DecodingKernels],
      [EncodingKernels]   : the kernels of the four files above that allocate
                            ancillas or issue noise
    - [MultiRoundAnalysis], [ScalingMeasurement], [ExtractionAnalysis],
      [DecodingAnalysis]  : the functions that analyse sampled shots

    Python values are kept as the code has them: a syndrome is a tuple of
    ints ([list Z]), a decode result is a pair whose components are [None],
    a [str] or an [int], the lookup table is a [dict] (a [gmap]) built from
    the literal in source order, and a kernel is the sequence of gates it
    issues.  Exceptions are results ([Ok] / [Raise]) threaded by bind.
    Error rates are rationals.  Shots are not sampled: the analysis
    functions are applied to arbitrary arrays of shots, and the distribution
    of the shots of a noiseless circuit is computed exactly ([Simulator]). *)

From stdpp Require Import gmap strings list.
From Stdlib Require Import QArith Lqa.

Local Open Scope Z_scope.

(** ** Python values, exceptions and indexing *)

Module Py.

(** The Python values that occur in decode results. *)
Inductive pyval : Type :=
| PyNone
| PyStr (s : string)
| PyInt (z : Z).

#[global] Instance pyval_eq_dec : EqDecision pyval.
Proof. solve_decision. Defined.

(** Exceptions raised by the modelled code. *)
Inductive exn : Type :=
| ValueError
| ZeroDivisionError
| IndexError
| TypeError
| OverflowError.

#[global] Instance exn_eq_dec : EqDecision exn.
Proof. solve_decision. Defined.

(** A computation either returns or raises. *)
Inductive result (A : Type) : Type :=
| Ok (a : A)
| Raise (e : exn).
Arguments Ok {A} a.
Arguments Raise {A} e.

#[global] Instance result_ret : MRet result := fun A a => Ok a.

#[global] Instance result_bind : MBind result := fun A B k m =>
  match m with
  | Ok a => k a
  | Raise e => Raise e
  end.

(** [q[i]] on a sequence of length [n]: the index must be an int, a
    negative one counts from the end, and anything still out of range
    raises [IndexError]. *)
Definition py_index (n : nat) (i : pyval) : result nat :=
  match i with
  | PyInt i =>
      let j := if i <? 0 then i + Z.of_nat n else i in
      if (0 <=? j) && (j <? Z.of_nat n) then Ok (Z.to_nat j)
      else Raise IndexError
  | _ => Raise TypeError
  end.

(** Numbers are rationals.  [x < y] as a test, and [x / y], which raises
    on a zero divisor. *)
Definition Qltb (x y : Q) : bool := negb (Qle_bool y x).

Definition py_div (x y : Q) : result Q :=
  if Qeq_bool y 0 then Raise ZeroDivisionError else Ok (x / y)%Q.

End Py.

(** ** Circuits as data *)

(** A qubit is named by the register it was allocated in ([q], [anc], [f])
    and its index there. *)
Inductive qref : Type :=
| Data (i : nat)
| Anc (i : nat)
| Flag (i : nat).

#[global] Instance qref_eq_dec : EqDecision qref.
Proof. solve_decision. Defined.

(** The operations a [squin] kernel issues. *)
Inductive gate : Type :=
| GH (q : qref)
| GX (q : qref)
| GY (q : qref)
| GZ (q : qref)
| GCX (c t : qref)
| GMeasure (q : qref).

#[global] Instance gate_eq_dec : EqDecision gate.
Proof. solve_decision. Defined.

(** Qubits a gate acts on. *)
Definition gate_qubits (g : gate) : list qref :=
  match g with
  | GH q | GX q | GY q | GZ q | GMeasure q => [q]
  | GCX c t => [c; t]
  end.

(** Qubits a circuit touches. *)
Definition touched (c : list gate) : list qref := c ≫= gate_qubits.

(** *** Computational-basis semantics of the encoders

    A basis state of the data register is a list of bits.  A circuit is run
    on the list of basis states that carry amplitude (the branches).  [GCX]
    and the Paulis permute basis states.  [GH] is only given a meaning
    where the encoders use it: on a qubit that is 0 in every branch, where
    it doubles each branch; anywhere else the run is undefined. *)

Abbreviation basis := (list bool).

Definition cx_basis (c t : nat) (b : basis) : basis :=
  match b !! c with
  | Some true => alter negb t b
  | _ => b
  end.

Definition h_branches (q : nat) (bs : list basis) : option (list basis) :=
  if forallb (fun b => bool_decide (b !! q = Some false)) bs
  then Some (bs ≫= (fun b => [b; <[q:=true]> b]))
  else None.

Definition step_branches (g : gate) (bs : list basis) : option (list basis) :=
  match g with
  | GH (Data q) => h_branches q bs
  | GCX (Data c) (Data t) => Some (cx_basis c t <$> bs)
  | GX (Data q) | GY (Data q) => Some (alter negb q <$> bs)
  | GZ (Data q) => Some bs
  | _ => None
  end.

Fixpoint run_branches (c : list gate) (bs : list basis) : option (list basis) :=
  match c with
  | [] => Some bs
  | g :: c' => bs' ← step_branches g bs; run_branches c' bs'
  end.

(** [squin.qalloc(7)]: every qubit starts in 0. *)
Definition qalloc (n : nat) : basis := replicate n false.

(** A row of bits as a string of 0s and 1s:
    [''.join(map(str, [int(x) for x in data]))]. *)
Definition bitstring (b : basis) : string :=
  String.concat "" ((fun x : bool => if x then "1" else "0") <$> b).

(** The readout strings a noiseless shot of an encoder can give. *)
Definition readouts (encoder : list gate) : option (list string) :=
  fmap (M:=list) bitstring <$> run_branches encoder [qalloc 7].

(** The CNOT part of a circuit acting on one basis state. *)
Definition run_basis (c : list gate) (b : basis) : basis :=
  foldl (fun b g => match g with
                    | GCX (Data c) (Data t) => cx_basis c t b
                    | GX (Data q) | GY (Data q) => alter negb q b
                    | _ => b
                    end) b c.

(** *** Stabilizer propagation

    A Pauli operator on the data register: a sign and, per qubit, whether it
    has an X and a Z factor.  [conj_gate g p] is [g p g†]. *)

Record pauli_op : Type := MkPauli {
  p_neg : bool;
  p_x : list bool;
  p_z : list bool
}.

#[global] Instance pauli_op_eq_dec : EqDecision pauli_op.
Proof. solve_decision. Defined.

Definition bit (l : list bool) (i : nat) : bool := default false (l !! i).

Definition conj_gate (g : gate) (p : pauli_op) : pauli_op :=
  match g with
  | GH (Data q) =>
      MkPauli (xorb (p_neg p) (bit (p_x p) q && bit (p_z p) q))
              (<[q := bit (p_z p) q]> (p_x p))
              (<[q := bit (p_x p) q]> (p_z p))
  | GCX (Data c) (Data t) =>
      MkPauli (xorb (p_neg p)
                 (bit (p_x p) c && bit (p_z p) t
                  && negb (xorb (bit (p_x p) t) (bit (p_z p) c))))
              (<[t := xorb (bit (p_x p) t) (bit (p_x p) c)]> (p_x p))
              (<[c := xorb (bit (p_z p) c) (bit (p_z p) t)]> (p_z p))
  | _ => p
  end.

Definition conj_circuit (c : list gate) (p : pauli_op) : pauli_op :=
  foldl (fun p g => conj_gate g p) p c.

(** The stabilizer generators of the all-zero register: Z on each qubit. *)
Definition z_on (n i : nat) : pauli_op :=
  MkPauli false (replicate n false) (<[i := true]> (replicate n false)).

Definition stabilizers (encoder : list gate) : list pauli_op :=
  (fun i => conj_circuit encoder (z_on 7 i)) <$> seq 0 7.

(** Two Pauli operators anticommute iff their symplectic product over
    GF(2) is 1: the parity of the qubits where an X factor of one meets a Z
    factor of the other. *)
Definition parity (l : list bool) : bool := foldr xorb false l.

Definition anticommute (p r : pauli_op) : bool :=
  xorb (parity (zip_with andb (p_x p) (p_z r)))
       (parity (zip_with andb (p_z p) (p_x r))).

(** The bit vector of a set of qubit indices. *)
Definition indicator (n : nat) (supp : list nat) : list bool :=
  (fun i => bool_decide (i ∈ supp)) <$> seq 0 n.

(** ** Segment 5.1: syndrome decoding *)

Module SyndromeDecoding.
Import Py.

(** A syndrome as Python has it: a tuple of ints. *)
Abbreviation syndrome := (list Z).

(** The entries of the [STEANE_SYNDROME_TABLE] literal, in source order. *)
Definition STEANE_SYNDROME_TABLE_items : list (syndrome * (pyval * pyval)) :=
  [ (* No error *)
    ([0;0;0;0;0;0], (PyNone, PyNone));
    (* Single X errors (detected by Z stabilizers) *)
    ([0;0;0;1;1;1], (PyStr "X", PyInt 0));
    ([0;0;0;1;1;0], (PyStr "X", PyInt 1));
    ([0;0;0;1;0;1], (PyStr "X", PyInt 2));
    ([0;0;0;1;0;0], (PyStr "X", PyInt 3));
    ([0;0;0;0;1;1], (PyStr "X", PyInt 4));
    ([0;0;0;0;1;0], (PyStr "X", PyInt 5));
    ([0;0;0;0;0;1], (PyStr "X", PyInt 6));
    (* Single Z errors (detected by X stabilizers) *)
    ([1;1;1;0;0;0], (PyStr "Z", PyInt 0));
    ([1;1;0;0;0;0], (PyStr "Z", PyInt 1));
    ([1;0;1;0;0;0], (PyStr "Z", PyInt 2));
    ([1;0;0;0;0;0], (PyStr "Z", PyInt 3));
    ([0;1;1;0;0;0], (PyStr "Z", PyInt 4));
    ([0;1;0;0;0;0], (PyStr "Z", PyInt 5));
    ([0;0;1;0;0;0], (PyStr "Z", PyInt 6));
    (* Single Y errors (detected by both) *)
    ([1;1;1;1;1;1], (PyStr "Y", PyInt 0));
    ([1;1;0;1;1;0], (PyStr "Y", PyInt 1));
    ([1;0;1;1;0;1], (PyStr "Y", PyInt 2));
    ([1;0;0;1;0;0], (PyStr "Y", PyInt 3));
    ([0;1;1;0;1;1], (PyStr "Y", PyInt 4));
    ([0;1;0;0;1;0], (PyStr "Y", PyInt 5));
    ([0;0;1;0;0;1], (PyStr "Y", PyInt 6)) ].

(** A dict display evaluates its items left to right; a later item with an
    equal key replaces the earlier one. *)
Definition dict_of_items {V : Type} (items : list (syndrome * V)) : gmap syndrome V :=
  foldl (fun d kv => <[kv.1 := kv.2]> d) ∅ items.

Definition STEANE_SYNDROME_TABLE : gmap syndrome (pyval * pyval) :=
  dict_of_items STEANE_SYNDROME_TABLE_items.

(** The three shapes of a decode result. *)
Definition NO_ERROR : pyval * pyval := (PyNone, PyNone).
Definition UNCORRECTABLE : pyval * pyval := (PyStr "Unknown", PyInt (-1)).
Definition single (kind : string) (q : Z) : pyval * pyval := (PyStr kind, PyInt q).

Definition decode_syndrome (s : syndrome) : pyval * pyval :=
  match STEANE_SYNDROME_TABLE !! s with
  | Some r => r
  | None => UNCORRECTABLE
  end.


Definition prepare_steane_logical_zero : list gate :=
  [ GH (Data 0); GH (Data 1); GH (Data 2);
    GCX (Data 0) (Data 3); GCX (Data 1) (Data 3);
    GCX (Data 0) (Data 4); GCX (Data 2) (Data 4);
    GCX (Data 1) (Data 5); GCX (Data 2) (Data 5);
    GCX (Data 0) (Data 6); GCX (Data 1) (Data 6); GCX (Data 2) (Data 6) ].

Definition measure_all_syndromes : list gate :=
  [ (* X-stabilizer S1: X0 X1 X2 X3 *)
    GH (Anc 0);
    GCX (Anc 0) (Data 0); GCX (Anc 0) (Data 1);
    GCX (Anc 0) (Data 2); GCX (Anc 0) (Data 3);
    GH (Anc 0);
    (* X-stabilizer S2: X0 X1 X4 X5 *)
    GH (Anc 1);
    GCX (Anc 1) (Data 0); GCX (Anc 1) (Data 1);
    GCX (Anc 1) (Data 4); GCX (Anc 1) (Data 5);
    GH (Anc 1);
    (* X-stabilizer S3: X0 X2 X4 X6 *)
    GH (Anc 2);
    GCX (Anc 2) (Data 0); GCX (Anc 2) (Data 2);
    GCX (Anc 2) (Data 4); GCX (Anc 2) (Data 6);
    GH (Anc 2);
    (* Z-stabilizer S4: Z0 Z1 Z2 Z3 *)
    GCX (Data 0) (Anc 3); GCX (Data 1) (Anc 3);
    GCX (Data 2) (Anc 3); GCX (Data 3) (Anc 3);
    (* Z-stabilizer S5: Z0 Z1 Z4 Z5 *)
    GCX (Data 0) (Anc 4); GCX (Data 1) (Anc 4);
    GCX (Data 4) (Anc 4); GCX (Data 5) (Anc 4);
    (* Z-stabilizer S6: Z0 Z2 Z4 Z6 *)
    GCX (Data 0) (Anc 5); GCX (Data 2) (Anc 5);
    GCX (Data 4) (Anc 5); GCX (Data 6) (Anc 5) ].

(** [apply_correction(q, error_type, qubit_idx)] on a data register of
    [n] qubits: the gates it issues.  No branch is taken for [None],
    ['Unknown'] or any other value, and then [q[qubit_idx]] is never
    evaluated. *)
Definition apply_correction (n : nat) (error_type qubit_idx : pyval)
  : result (list gate) :=
  if decide (error_type = PyStr "X") then
    i ← py_index n qubit_idx; mret [GX (Data i)]
  else if decide (error_type = PyStr "Z") then
    i ← py_index n qubit_idx; mret [GZ (Data i)]
  else if decide (error_type = PyStr "Y") then
    i ← py_index n qubit_idx; mret [GY (Data i)]
  else mret [].

(** *** The stabilizer generators the extraction circuit measures

    Ancilla [a] measures an X-type generator when it is put through
    Hadamards and controls the CNOTs, a Z-type one when it is their
    target; the generator's support is the data qubits it is coupled
    to. *)

Inductive gen_type : Type := XType | ZType.

#[global] Instance gen_type_eq_dec : EqDecision gen_type.
Proof. solve_decision. Defined.

Definition ancilla_type (c : list gate) (a : nat) : gen_type :=
  if bool_decide (GH (Anc a) ∈ c) then XType else ZType.

Definition ancilla_support (c : list gate) (a : nat) : list nat :=
  c ≫= (fun g =>
    match g with
    | GCX (Anc a') (Data d) | GCX (Data d) (Anc a') =>
        if bool_decide (a' = a) then [d] else []
    | _ => []
    end).

(** Generators in syndrome-bit order (ancilla 0 to 5). *)
Definition generators : list (gen_type * list nat) :=
  (fun a => (ancilla_type measure_all_syndromes a,
             ancilla_support measure_all_syndromes a)) <$> seq 0 6.

Definition x_generators : list (list nat) :=
  snd <$> filter (fun g => g.1 = XType) generators.
Definition z_generators : list (list nat) :=
  snd <$> filter (fun g => g.1 = ZType) generators.

(** *** Single-qubit errors and the syndromes they produce *)

Inductive pauli : Type := PX | PY | PZ.

#[global] Instance pauli_eq_dec : EqDecision pauli.
Proof. solve_decision. Defined.

Definition pauli_name (k : pauli) : string :=
  match k with PX => "X" | PY => "Y" | PZ => "Z" end.

(** An X-type generator detects Z and Y errors, a Z-type one X and Y. *)
Definition detects (t : gen_type) (k : pauli) : bool :=
  match t, k with
  | XType, (PZ | PY) => true
  | ZType, (PX | PY) => true
  | _, _ => false
  end.

(** Spec-side definition (data model, SyndromeTable): bit [i] is 1 iff the
    error's qubit lies in generator [i]'s support and the generator's type
    detects the error kind. *)
Definition syndrome_of (k : pauli) (q : nat) : syndrome :=
  (fun g : gen_type * list nat =>
     if detects g.1 k && bool_decide (q ∈ g.2) then 1 else 0) <$> generators.

(** The same through operators: a generator and an error as Pauli
    operators on the 7 data qubits, and the syndrome bit of a generator as
    whether the error anticommutes with it. *)
Definition generator_op (g : gen_type * list nat) : pauli_op :=
  match g.1 with
  | XType => MkPauli false (indicator 7 g.2) (replicate 7 false)
  | ZType => MkPauli false (replicate 7 false) (indicator 7 g.2)
  end.

Definition error_op (k : pauli) (q : nat) : pauli_op :=
  match k with
  | PX => MkPauli false (indicator 7 [q]) (replicate 7 false)
  | PZ => MkPauli false (replicate 7 false) (indicator 7 [q])
  | PY => MkPauli false (indicator 7 [q]) (indicator 7 [q])
  end.

Definition commutation_syndrome (k : pauli) (q : nat) : syndrome :=
  (fun g => if anticommute (error_op k q) (generator_op g) then 1 else 0)
  <$> generators.

(** Componentwise XOR and OR of two bit tuples. *)
Definition xor_bit (a b : Z) : Z := Z.lxor a b.
Definition or_bit (a b : Z) : Z := Z.lor a b.
Definition syndrome_xor (s t : syndrome) : syndrome := zip_with xor_bit s t.
Definition syndrome_or (s t : syndrome) : syndrome := zip_with or_bit s t.

(** The 6-bit syndromes. *)
Definition is_syndrome (s : syndrome) : Prop :=
  length s = 6%nat ∧ Forall (fun b => b = 0 ∨ b = 1) s.

Fixpoint bit_tuples (n : nat) : list (list Z) :=
  match n with
  | O => [[]]
  | S n' => bit_tuples n' ≫= (fun t => [0 :: t; 1 :: t])
  end.

Definition all_syndromes : list syndrome := bit_tuples 6.

(** The table key listed for an error, if any: the first item of the
    literal whose value is [(kind, qubit)]. *)
Definition listed_syndrome (k : pauli) (q : nat) : option syndrome :=
  (fun r => r.2.1) <$>
    list_find (fun kv => kv.2 = single (pauli_name k) (Z.of_nat q))
              STEANE_SYNDROME_TABLE_items.

(** The single-qubit errors of the register. *)
Definition single_errors : list (pauli * nat) :=
  k ← [PX; PZ; PY]; q ← seq 0 7; [(k, q)].


(** *** Vocabulary of the properties *)

(** Membership bits of a qubit in a list of supports. *)
Definition support_bits (q : nat) (gens : list (list nat)) : syndrome :=
  (fun g => if bool_decide (q ∈ g) then 1 else 0) <$> gens.

(** The syndromes of the 14 single-qubit X and Z errors. *)
Definition xz_syndromes : list syndrome :=
  k ← [PX; PZ]; q ← seq 0 7; [syndrome_of k q].

(** The syndrome when no error has occurred: no generator fires. *)
Definition no_error_syndrome : syndrome := (fun _ => 0) <$> generators.

(** The syndromes that do not decode to the uncorrectable result. *)
Definition correctable_syndromes : list syndrome :=
  filter (fun s => decode_syndrome s ≠ UNCORRECTABLE) all_syndromes.

(** Error [(k, q)] is listed in the table under key [s]. *)
Definition listed_at (s : syndrome) (k : pauli) (q : Z) : Prop :=
  (s, single (pauli_name k) q) ∈ STEANE_SYNDROME_TABLE_items.

(** The Pauli gate of a kind. *)
Definition pauli_gate (k : pauli) (q : qref) : gate :=
  match k with PX => GX q | PY => GY q | PZ => GZ q end.

End SyndromeDecoding.

(** ** Segment 2.3: the naive encoder and its codeword set *)

Module MultiRoundQec.

Definition prepare_steane_logical_zero : list gate :=
  [ GH (Data 0); GH (Data 1); GH (Data 2);
    GCX (Data 0) (Data 3); GCX (Data 1) (Data 3);
    GCX (Data 0) (Data 4); GCX (Data 2) (Data 4);
    GCX (Data 1) (Data 5); GCX (Data 2) (Data 5);
    GCX (Data 0) (Data 6); GCX (Data 1) (Data 6); GCX (Data 2) (Data 6) ].

Definition steane_zero_codewords : gset string :=
  {[ "0000000"; "1010101"; "0110011"; "1100110";
     "0001111"; "1011010"; "0111100"; "1101001" ]}.

End MultiRoundQec.

(** ** Segment 4.1: the depth-optimized encoder *)

Module ImprovedEncoding.

Definition optimized_steane_encoding : list gate :=
  [ (* Layer 1 *)
    GH (Data 0); GH (Data 1); GH (Data 2);
    (* Layer 2 *)
    GCX (Data 0) (Data 3); GCX (Data 1) (Data 5); GCX (Data 2) (Data 4);
    (* Layer 3 *)
    GCX (Data 0) (Data 4); GCX (Data 1) (Data 3); GCX (Data 2) (Data 5);
    (* Layer 4 *)
    GCX (Data 0) (Data 6); GCX (Data 1) (Data 6); GCX (Data 2) (Data 6) ].

Definition optimized_steane_encoding_with_measure : list gate :=
  optimized_steane_encoding ++ ((fun i => GMeasure (Data i)) <$> seq 0 7).

(** The set [verify_codewords] checks readouts against. *)
Definition valid_codewords : gset string :=
  {[ "0000000"; "0001111"; "0110011"; "0111100";
     "1010101"; "1011010"; "1100110"; "1101001" ]}.

(** [verify_codewords] on the sampled bitstrings: [valid_count / shots]. *)
Definition verify_codewords (bitstrings : list string) : Py.result Q :=
  let valid_count := length (filter (fun bs => bs ∈ valid_codewords) bitstrings) in
  Py.py_div (inject_Z (Z.of_nat valid_count))
            (inject_Z (Z.of_nat (length bitstrings))).

End ImprovedEncoding.

(** ** Segment 3.2: logical versus physical error scaling

    Rates are modelled as rationals: the comparisons, guards and exceptions
    of the analysis are what the claims are about, and they do not depend on
    rounding.  [math.log] and [math.exp] are parameters of the model; the
    domain check of [math.log] is written out. *)

Module ErrorScaling.
Import Py.
Local Open Scope Q_scope.

(** [sum(xs)]: from 0, left to right. *)
Definition py_sum (xs : list Q) : Q := foldl Qplus 0 xs.

(** What the "Interpretation" block prints. *)
Inductive interpretation : Type :=
| Suppresses   (* "Power < 1: QEC provides benefit (suppresses errors)" *)
| NoBenefit    (* "Power = 1: No QEC benefit (L = aP)" *)
| Amplifies.   (* "Power > 1: QEC amplifies errors (not working)" *)

#[global] Instance interpretation_eq_dec : EqDecision interpretation.
Proof. solve_decision. Defined.

Definition interpret (power : Q) : interpretation :=
  if Qltb power 1 then Suppresses
  else if Qeq_bool power 1 then NoBenefit
  else Amplifies.

(** Everything the analysis prints. *)
Record report : Type := MkReport {
  data_rows : list (Q * Q * Q);     (* P, L, ratio *)
  n_points : nat;                   (* points entering the regression *)
  power : Q;
  coefficient : Q;
  verdict : interpretation;
  helps : list (Q * Q * Q);         (* "Points where L < P (QEC helps)" *)
  hurts : list (Q * Q * Q);         (* "Points where L > P (QEC hurts)" *)
  below_threshold : nat
}.

(** One line of the data table: [ratio = l / p if p > 0 else 0]. *)
Definition ratio_row (pl : Q * Q) : result (Q * Q * Q) :=
  ratio ← (if Qltb 0 pl.1 then py_div pl.2 pl.1 else Ok 0);
  mret (pl.1, pl.2, ratio).

(** A line of the threshold listings: [ratio = l / p], unguarded. *)
Definition threshold_row (pl : Q * Q) : result (Q * Q * Q) :=
  ratio ← py_div pl.2 pl.1;
  mret (pl.1, pl.2, ratio).

(** The regression on the log-log points: slope ([power]) and intercept
    ([log_a]). *)
Definition linear_regression (log_p log_l : list Q) : result (Q * Q) :=
  let n := inject_Z (Z.of_nat (length log_p)) in
  mean_x ← py_div (py_sum log_p) n;
  mean_y ← py_div (py_sum log_l) n;
  let numerator :=
    py_sum ((fun xy : Q * Q => (xy.1 - mean_x) * (xy.2 - mean_y))
            <$> zip log_p log_l) in
  let denominator := py_sum ((fun x : Q => (x - mean_x) ^ 2) <$> log_p) in
  pw ← (if negb (Qeq_bool denominator 0) then py_div numerator denominator
        else Ok 1);
  mret (pw, mean_y - pw * mean_x).

Section Analysis.
(** The values of [math.log] on positive arguments and of [math.exp],
    [None] where the exponential is out of range. *)
Variable math_log : Q -> Q.
Variable math_exp : Q -> option Q.

(** [math.log] raises [ValueError] outside its domain. *)
Definition _log (x : Q) : result Q :=
  if Qltb 0 x then Ok (math_log x) else Raise ValueError.

(** [math.exp] raises [OverflowError] when its result is out of range. *)
Definition _exp (x : Q) : result Q :=
  match math_exp x with
  | Some y => Ok y
  | None => Raise OverflowError
  end.

Definition plot_error_scaling (physical_errors logical_errors : list Q)
  : result report :=
  let points := zip physical_errors logical_errors in
  (* Display data table *)
  rows ← mapM ratio_row points;
  (* Power law fit using log-linear regression *)
  log_p ← mapM _log physical_errors;
  log_l ← mapM _log logical_errors;
  fit ← linear_regression log_p log_l;
  a ← _exp fit.2;
  (* Threshold analysis *)
  hlp ← mapM threshold_row (filter (fun pl => Qltb pl.2 pl.1 = true) points);
  hrt ← mapM threshold_row (filter (fun pl => Qltb pl.1 pl.2 = true) points);
  mret (MkReport rows (length log_p) fit.1 a (interpret fit.1) hlp hrt
          (length (filter (fun pl => Qltb pl.2 pl.1 = true) points))).

End Analysis.

(** An exact instance of the two parameters: the logarithm and the
    exponential in base 2, exact on powers of two.  The fitted exponent
    does not depend on the base of the logarithm. *)
Definition log2_exact (x : Q) : Q :=
  inject_Z (Z.log2 (Qnum x) - Z.log2 (Zpos (Qden x))).

Definition exp2_exact (x : Q) : option Q :=
  Some (2 ^ (Qnum x / Z.pos (Qden x))%Z).

(** The ratio column as the guard computes it. *)
Definition guarded_ratio (pl : Q * Q) : Q * Q * Q :=
  (pl.1, pl.2, if Qltb 0 pl.1 then pl.2 / pl.1 else 0).

End ErrorScaling.

(** ** Errors of higher weight against the decoder *)

Module DecoderCoverage.
Import Py SyndromeDecoding.

(** The product of two Pauli operators, up to its phase: the X and Z
    factors add over GF(2). *)
Definition op_mul (p r : pauli_op) : pauli_op :=
  MkPauli (xorb (p_neg p) (p_neg r))
          (zip_with xorb (p_x p) (p_x r))
          (zip_with xorb (p_z p) (p_z r)).

(** The syndrome of an arbitrary error operator: one bit per generator of
    [measure_all_syndromes], set when the error anticommutes with it. *)
Definition op_syndrome (p : pauli_op) : syndrome :=
  (fun g => if anticommute p (generator_op g) then 1 else 0) <$> generators.

(** The operators of the stabilizer group, up to phase: the products of the
    subsets of the generators. *)
Definition identity_op : pauli_op :=
  MkPauli false (replicate 7 false) (replicate 7 false).

Definition stabilizer_group : list pauli_op :=
  foldr (fun g acc => acc ++ (op_mul (generator_op g) <$> acc))
        [identity_op] generators.

(** Two operators that differ by a phase only. *)
Definition same_factors (p r : pauli_op) : Prop :=
  p_x p = p_x r ∧ p_z p = p_z r.

#[global] Instance same_factors_dec p r : Decision (same_factors p r).
Proof. unfold same_factors. apply _. Defined.

(** A logical operator: undetected by every generator, yet not in the
    stabilizer group. *)
Definition is_logical (p : pauli_op) : Prop :=
  op_syndrome p = [0; 0; 0; 0; 0; 0]
  ∧ Forall (fun st => ¬ same_factors p st) stabilizer_group.

#[global] Instance is_logical_dec p : Decision (is_logical p).
Proof. unfold is_logical. apply _. Defined.

(** The number of qubits an operator acts on. *)
Definition weight (p : pauli_op) : nat :=
  length (filter (fun b => b = true) (zip_with orb (p_x p) (p_z p))).

(** The syndromes of an X error on one qubit together with a Z error on
    another. *)
Definition mixed_pair_syndromes : list syndrome :=
  i ← seq 0 7; j ← seq 0 7;
  if decide (i = j) then []
  else [op_syndrome (op_mul (error_op PX i) (error_op PZ j))].

End DecoderCoverage.

(** ** Kernels with allocation and noise

    The kernels that allocate ancillas in a loop, or issue noise channels,
    are written as the code has them, in a builder that threads the number
    of ancillas allocated so far and collects the operations issued.  The
    data register is the first [qalloc(7)]; ancilla [Anc i] is the i-th
    ancilla qubit allocated after it, flag [Flag i] the i-th qubit of the
    flag register. *)

Module Kernel.
Local Open Scope nat_scope.

(** An operation of a kernel: a gate or measurement, or a noise channel
    with its probability. *)
Inductive op : Type :=
| OGate (g : gate)
| ODepolarize (p : Q) (q : qref)
| ODepolarize2 (p : Q) (q1 q2 : qref).

Definition kernel (A : Type) : Type := nat → A * nat * list op.

#[global] Instance kernel_ret : MRet kernel := fun A a n => (a, n, []).

#[global] Instance kernel_bind : MBind kernel := fun A B k m n =>
  let '(a, n1, o1) := m n in
  let '(b, n2, o2) := k a n1 in
  (b, n2, o1 ++ o2).

Definition emit (o : op) : kernel unit := fun n => (tt, n, [o]).

(** [squin.qalloc(1)[0]] and [squin.qalloc(k)] for ancillas. *)
Definition qalloc1 : kernel qref := fun n => (Anc n, S n, []).
Definition qalloc_anc (k : nat) : kernel (list qref) :=
  fun n => (Anc <$> seq n k, k + n, []).

Definition h (q : qref) : kernel unit := emit (OGate (GH q)).
Definition x (q : qref) : kernel unit := emit (OGate (GX q)).
Definition z (q : qref) : kernel unit := emit (OGate (GZ q)).
Definition cx (c t : qref) : kernel unit := emit (OGate (GCX c t)).
Definition measure (q : qref) : kernel unit := emit (OGate (GMeasure q)).
Definition depolarize (p : Q) (q : qref) : kernel unit := emit (ODepolarize p q).
Definition depolarize2 (p : Q) (q1 q2 : qref) : kernel unit :=
  emit (ODepolarize2 p q1 q2).

(** [for v in l: body(v)] *)
Fixpoint for_each {A : Type} (l : list A) (body : A → kernel unit) : kernel unit :=
  match l with
  | [] => mret tt
  | v :: l' => body v ;; for_each l' body
  end.

(** The gates of an already written gate sequence, issued in order. *)
Definition emit_gates (gs : list gate) : kernel unit :=
  for_each gs (fun g => emit (OGate g)).

(** The operations a kernel issues when it starts with [n] ancillas
    allocated, and as a whole program. *)
Definition ops_from {A : Type} (k : kernel A) (n : nat) : list op := (k n).2.
Definition ops_of {A : Type} (k : kernel A) : list op := ops_from k 0.

(** The gates of an operation list (noise channels dropped), its noise
    channels, and the qubits measured, in program order: the columns of a
    shot. *)
Definition gates_of (os : list op) : list gate :=
  os ≫= (fun o => match o with OGate g => [g] | _ => [] end).

Definition noise_of (os : list op) : list op :=
  os ≫= (fun o => match o with OGate _ => [] | _ => [o] end).

Definition measured (gs : list gate) : list qref :=
  gs ≫= (fun g => match g with GMeasure q => [q] | _ => [] end).

(** Renaming ancilla [Anc i] to [Anc (i + n)]. *)
Definition shift_qref (n : nat) (q : qref) : qref :=
  match q with Anc i => Anc (i + n) | _ => q end.

Definition shift_gate (n : nat) (g : gate) : gate :=
  match g with
  | GH q => GH (shift_qref n q)
  | GX q => GX (shift_qref n q)
  | GY q => GY (shift_qref n q)
  | GZ q => GZ (shift_qref n q)
  | GCX c t => GCX (shift_qref n c) (shift_qref n t)
  | GMeasure q => GMeasure (shift_qref n q)
  end.

(** The generators an extraction round measures with ancillas
    [base .. base + 5]. *)
Definition generators_at (base : nat) (c : list gate)
  : list (SyndromeDecoding.gen_type * list nat) :=
  (fun a => (SyndromeDecoding.ancilla_type c (a + base),
             SyndromeDecoding.ancilla_support c (a + base))) <$> seq 0 6.

End Kernel.

(** ** Segment 2.2: per-stabilizer extraction kernels *)

Module SyndromeExtraction.
Import Py Kernel.

Definition prepare_steane_logical_zero : kernel unit :=
  emit_gates MultiRoundQec.prepare_steane_logical_zero.

Definition measure_x_syndrome_s1 : kernel qref :=
  anc ← qalloc1;
  h anc;;
  cx anc (Data 0);; cx anc (Data 1);; cx anc (Data 2);; cx anc (Data 3);;
  h anc;;
  measure anc;;
  mret anc.

Definition measure_x_syndrome_s2 : kernel qref :=
  anc ← qalloc1;
  h anc;;
  cx anc (Data 0);; cx anc (Data 1);; cx anc (Data 4);; cx anc (Data 5);;
  h anc;;
  measure anc;;
  mret anc.

Definition measure_x_syndrome_s3 : kernel qref :=
  anc ← qalloc1;
  h anc;;
  cx anc (Data 0);; cx anc (Data 2);; cx anc (Data 4);; cx anc (Data 6);;
  h anc;;
  measure anc;;
  mret anc.

Definition measure_z_syndrome_s4 : kernel qref :=
  anc ← qalloc1;
  cx (Data 0) anc;; cx (Data 1) anc;; cx (Data 2) anc;; cx (Data 3) anc;;
  measure anc;;
  mret anc.

Definition measure_z_syndrome_s5 : kernel qref :=
  anc ← qalloc1;
  cx (Data 0) anc;; cx (Data 1) anc;; cx (Data 4) anc;; cx (Data 5) anc;;
  measure anc;;
  mret anc.

Definition measure_z_syndrome_s6 : kernel qref :=
  anc ← qalloc1;
  cx (Data 0) anc;; cx (Data 2) anc;; cx (Data 4) anc;; cx (Data 6) anc;;
  measure anc;;
  mret anc.

(** The six measurements and the data readout shared by the two kernels
    below. *)
Definition extract_and_read : kernel unit :=
  measure_x_syndrome_s1;; measure_x_syndrome_s2;; measure_x_syndrome_s3;;
  measure_z_syndrome_s4;; measure_z_syndrome_s5;; measure_z_syndrome_s6;;
  for_each (seq 0 7) (fun i => measure (Data i)).

Definition full_syndrome_extraction : kernel unit :=
  prepare_steane_logical_zero;;
  extract_and_read.

(** The "Inject error" block: nothing for a negative qubit, nothing for a
    type other than "X" and "Z"; [data[error_qubit]] is evaluated only when
    a gate is issued. *)
Definition inject_error (error_qubit : Z) (error_type : string)
  : result (list gate) :=
  if 0 <=? error_qubit then
    if decide (error_type = "X") then
      i ← py_index 7 (PyInt error_qubit); mret [GX (Data i)]
    else if decide (error_type = "Z") then
      i ← py_index 7 (PyInt error_qubit); mret [GZ (Data i)]
    else mret []
  else mret [].

Definition syndrome_extraction_with_error (error_qubit : Z) (error_type : string)
  : result (list op) :=
  err ← inject_error error_qubit error_type;
  mret (ops_of (prepare_steane_logical_zero;; emit_gates err;; extract_and_read)).

End SyndromeExtraction.

(** ** Segment 2.3: rounds of extraction with noise *)

Module MultiRoundKernels.
Import Py Kernel.

Definition single_qec_round_with_noise (noise_level : Q) : kernel unit :=
  (if Qltb 0 noise_level
   then for_each (seq 0 7) (fun i => depolarize noise_level (Data i))
   else mret tt);;
  (* Measure X-stabilizers (S1, S2, S3) *)
  anc_x1 ← qalloc1;
  h anc_x1;;
  cx anc_x1 (Data 0);; cx anc_x1 (Data 1);; cx anc_x1 (Data 2);; cx anc_x1 (Data 3);;
  h anc_x1;;
  measure anc_x1;;
  anc_x2 ← qalloc1;
  h anc_x2;;
  cx anc_x2 (Data 0);; cx anc_x2 (Data 1);; cx anc_x2 (Data 4);; cx anc_x2 (Data 5);;
  h anc_x2;;
  measure anc_x2;;
  anc_x3 ← qalloc1;
  h anc_x3;;
  cx anc_x3 (Data 0);; cx anc_x3 (Data 2);; cx anc_x3 (Data 4);; cx anc_x3 (Data 6);;
  h anc_x3;;
  measure anc_x3;;
  (* Measure Z-stabilizers (S4, S5, S6) *)
  anc_z1 ← qalloc1;
  cx (Data 0) anc_z1;; cx (Data 1) anc_z1;; cx (Data 2) anc_z1;; cx (Data 3) anc_z1;;
  measure anc_z1;;
  anc_z2 ← qalloc1;
  cx (Data 0) anc_z2;; cx (Data 1) anc_z2;; cx (Data 4) anc_z2;; cx (Data 5) anc_z2;;
  measure anc_z2;;
  anc_z3 ← qalloc1;
  cx (Data 0) anc_z3;; cx (Data 2) anc_z3;; cx (Data 4) anc_z3;; cx (Data 6) anc_z3;;
  measure anc_z3.

Definition multi_round_qec (num_rounds : nat) (noise_level : Q) : kernel unit :=
  emit_gates MultiRoundQec.prepare_steane_logical_zero;;
  for_each (seq 0 num_rounds) (fun _ => single_qec_round_with_noise noise_level);;
  for_each (seq 0 7) (fun i => measure (Data i)).

Definition memory_experiment_with_idle_noise
    (idle_time_steps : nat) (noise_per_step : Q) : kernel unit :=
  emit_gates MultiRoundQec.prepare_steane_logical_zero;;
  for_each (seq 0 idle_time_steps) (fun _ =>
    for_each (seq 0 7) (fun i => depolarize noise_per_step (Data i));;
    single_qec_round_with_noise 0%Q);;
  for_each (seq 0 7) (fun i => measure (Data i)).

End MultiRoundKernels.

(** ** Segment 3.2: the memory experiment *)

Module ScalingKernels.
Import Py Kernel.

Definition steane_qec_round (physical_error : Q) : kernel unit :=
  for_each (seq 0 7) (fun i => depolarize physical_error (Data i));;
  (* X-stabilizers *)
  anc_x1 ← qalloc1;
  h anc_x1;;
  depolarize physical_error anc_x1;;
  cx anc_x1 (Data 0);; cx anc_x1 (Data 1);; cx anc_x1 (Data 2);; cx anc_x1 (Data 3);;
  h anc_x1;;
  measure anc_x1;;
  anc_x2 ← qalloc1;
  h anc_x2;;
  depolarize physical_error anc_x2;;
  cx anc_x2 (Data 0);; cx anc_x2 (Data 1);; cx anc_x2 (Data 4);; cx anc_x2 (Data 5);;
  h anc_x2;;
  measure anc_x2;;
  anc_x3 ← qalloc1;
  h anc_x3;;
  depolarize physical_error anc_x3;;
  cx anc_x3 (Data 0);; cx anc_x3 (Data 2);; cx anc_x3 (Data 4);; cx anc_x3 (Data 6);;
  h anc_x3;;
  measure anc_x3;;
  (* Z-stabilizers *)
  anc_z1 ← qalloc1;
  depolarize physical_error anc_z1;;
  cx (Data 0) anc_z1;; cx (Data 1) anc_z1;; cx (Data 2) anc_z1;; cx (Data 3) anc_z1;;
  measure anc_z1;;
  anc_z2 ← qalloc1;
  depolarize physical_error anc_z2;;
  cx (Data 0) anc_z2;; cx (Data 1) anc_z2;; cx (Data 4) anc_z2;; cx (Data 5) anc_z2;;
  measure anc_z2;;
  anc_z3 ← qalloc1;
  depolarize physical_error anc_z3;;
  cx (Data 0) anc_z3;; cx (Data 2) anc_z3;; cx (Data 4) anc_z3;; cx (Data 6) anc_z3;;
  measure anc_z3.

(** [prepare_steane_zero] is the gate sequence of the other encoders. *)
Definition prepare_steane_zero : kernel unit :=
  emit_gates MultiRoundQec.prepare_steane_logical_zero.

Definition memory_experiment (rounds : nat) (physical_error : Q) : kernel unit :=
  prepare_steane_zero;;
  for_each (seq 0 rounds) (fun _ => steane_qec_round physical_error);;
  for_each (seq 0 7) (fun i => measure (Data i)).

End ScalingKernels.

(** ** Segment 5.1: rounds of extraction with storage noise *)

Module DecodingKernels.
Import Py Kernel.

(** [measure_all_syndromes(q)]: allocates six ancillas and issues the gates
    of [SyndromeDecoding.measure_all_syndromes] on them. *)
Definition measure_all_syndromes : kernel (list qref) :=
  fun n => (Anc <$> seq n 6, (6 + n)%nat,
            OGate <$> (shift_gate n <$> SyndromeDecoding.measure_all_syndromes)).

Definition multi_round_qec_noisy (num_rounds : nat) (p_storage : Q) : kernel unit :=
  emit_gates SyndromeDecoding.prepare_steane_logical_zero;;
  for_each (seq 0 num_rounds) (fun round_idx =>
    (* Storage errors *)
    for_each (seq 0 7) (fun i => depolarize p_storage (Data i));;
    (* Syndrome measurement *)
    anc ← measure_all_syndromes;
    (* Measurement noise on ancillas *)
    for_each anc (fun a => depolarize (p_storage * 5)%Q a);;
    (* Measure syndromes *)
    for_each anc measure);;
  (* Final data measurement *)
  for_each (seq 0 7) (fun i => measure (Data i)).

(** The body of the loop above, for one round. *)
Definition noisy_round (p_storage : Q) : kernel unit :=
  for_each (seq 0 7) (fun i => depolarize p_storage (Data i));;
  anc ← measure_all_syndromes;
  for_each anc (fun a => depolarize (p_storage * 5)%Q a);;
  for_each anc measure.

(** The two demo cycles: encoder, one injected error, extraction, then all
    ancillas and all data qubits measured. *)
Definition qec_cycle_with_correction_single_x_error : kernel unit :=
  emit_gates SyndromeDecoding.prepare_steane_logical_zero;;
  x (Data 2);;
  anc ← measure_all_syndromes;
  for_each anc measure;;
  for_each (seq 0 7) (fun i => measure (Data i)).

Definition qec_cycle_with_correction_single_z_error : kernel unit :=
  emit_gates SyndromeDecoding.prepare_steane_logical_zero;;
  z (Data 3);;
  anc ← measure_all_syndromes;
  for_each anc measure;;
  for_each (seq 0 7) (fun i => measure (Data i)).

End DecodingKernels.

(** ** Segment 4.1: noisy, flagged and parallel encoders *)

Module EncodingKernels.
Import Py Kernel.

Definition flagged_steane_encoding_with_measure : kernel unit :=
  (* Layer 1: Prepare superposition *)
  h (Data 0);; h (Data 1);; h (Data 2);;
  (* Add flag verification after superposition *)
  h (Flag 0);; cx (Flag 0) (Data 0);; cx (Flag 0) (Data 1);; h (Flag 0);;
  (* Layer 2: First CNOT layer with flag *)
  cx (Data 0) (Data 3);; cx (Data 1) (Data 5);; cx (Data 2) (Data 4);;
  (* Flag check after first layer *)
  h (Flag 1);; cx (Flag 1) (Data 3);; cx (Flag 1) (Data 4);; h (Flag 1);;
  (* Layer 3: Second CNOT layer *)
  cx (Data 0) (Data 4);; cx (Data 1) (Data 3);; cx (Data 2) (Data 5);;
  (* Layer 4: Final CNOT layer with flag *)
  cx (Data 0) (Data 6);; cx (Data 1) (Data 6);; cx (Data 2) (Data 6);;
  (* Final flag check *)
  h (Flag 2);; cx (Flag 2) (Data 6);; cx (Flag 2) (Data 0);; h (Flag 2);;
  (* Measure flags first *)
  for_each (seq 0 3) (fun i => measure (Flag i));;
  (* Measure data qubits *)
  for_each (seq 0 7) (fun i => measure (Data i)).

Definition parallel_optimized_logical_zero : kernel unit :=
  h (Data 0);; h (Data 1);; h (Data 2);;
  cx (Data 0) (Data 3);; cx (Data 1) (Data 5);; cx (Data 2) (Data 4);;
  cx (Data 0) (Data 4);; cx (Data 1) (Data 3);; cx (Data 2) (Data 5);;
  cx (Data 0) (Data 6);; cx (Data 1) (Data 6);; cx (Data 2) (Data 6);;
  for_each (seq 0 7) (fun i => measure (Data i)).

Definition noisy_optimized_encoding (p_gate p_measure : Q) : kernel unit :=
  (* Layer 1: Hadamards with noise *)
  h (Data 0);; depolarize p_gate (Data 0);;
  h (Data 1);; depolarize p_gate (Data 1);;
  h (Data 2);; depolarize p_gate (Data 2);;
  (* Layer 2: CNOTs with noise *)
  cx (Data 0) (Data 3);; depolarize2 (p_gate * 2)%Q (Data 0) (Data 3);;
  cx (Data 1) (Data 5);; depolarize2 (p_gate * 2)%Q (Data 1) (Data 5);;
  cx (Data 2) (Data 4);; depolarize2 (p_gate * 2)%Q (Data 2) (Data 4);;
  (* Layer 3 *)
  cx (Data 0) (Data 4);; depolarize2 (p_gate * 2)%Q (Data 0) (Data 4);;
  cx (Data 1) (Data 3);; depolarize2 (p_gate * 2)%Q (Data 1) (Data 3);;
  cx (Data 2) (Data 5);; depolarize2 (p_gate * 2)%Q (Data 2) (Data 5);;
  (* Layer 4 *)
  cx (Data 0) (Data 6);; depolarize2 (p_gate * 2)%Q (Data 0) (Data 6);;
  cx (Data 1) (Data 6);; depolarize2 (p_gate * 2)%Q (Data 1) (Data 6);;
  cx (Data 2) (Data 6);; depolarize2 (p_gate * 2)%Q (Data 2) (Data 6);;
  (* Measurements with noise *)
  for_each (seq 0 7) (fun i =>
    depolarize p_measure (Data i);; measure (Data i)).

(** The circuit [evaluate_noise_resilience] builds for noise level [p]. *)
Definition evaluate_noise_resilience_circuit (p : Q) : kernel unit :=
  h (Data 0);; depolarize p (Data 0);;
  h (Data 1);; depolarize p (Data 1);;
  h (Data 2);; depolarize p (Data 2);;
  cx (Data 0) (Data 3);; depolarize2 (p * 2)%Q (Data 0) (Data 3);;
  cx (Data 1) (Data 5);; depolarize2 (p * 2)%Q (Data 1) (Data 5);;
  cx (Data 2) (Data 4);; depolarize2 (p * 2)%Q (Data 2) (Data 4);;
  cx (Data 0) (Data 4);; depolarize2 (p * 2)%Q (Data 0) (Data 4);;
  cx (Data 1) (Data 3);; depolarize2 (p * 2)%Q (Data 1) (Data 3);;
  cx (Data 2) (Data 5);; depolarize2 (p * 2)%Q (Data 2) (Data 5);;
  cx (Data 0) (Data 6);; depolarize2 (p * 2)%Q (Data 0) (Data 6);;
  cx (Data 1) (Data 6);; depolarize2 (p * 2)%Q (Data 1) (Data 6);;
  cx (Data 2) (Data 6);; depolarize2 (p * 2)%Q (Data 2) (Data 6);;
  for_each (seq 0 7) (fun i =>
    depolarize (p * 5)%Q (Data i);; measure (Data i)).

(** The channel a noisy encoder attaches to a gate: after a Hadamard on
    its qubit, after a CNOT on its two qubits, before a measurement on the
    measured qubit. *)
Definition with_noise (p_gate p_measure : Q) (g : gate) : list op :=
  match g with
  | GH q => [OGate g; ODepolarize p_gate q]
  | GCX c t => [OGate g; ODepolarize2 (p_gate * 2)%Q c t]
  | GMeasure q => [ODepolarize p_measure q; OGate g]
  | _ => [OGate g]
  end.

End EncodingKernels.

(** ** Exact noiseless execution of a circuit

    The state of the register is kept exactly, without normalisation: the
    integer amplitude of every basis state that has one.  The gates act as
    they do on basis states: X flips a bit, Z changes the sign where the bit
    is 1, CNOT flips the target where the control is 1, and a Hadamard
    sends |0> to |0> + |1> and |1> to |0> - |1> (so every Hadamard scales the
    state by the square root of 2, which the probabilities below divide
    out).  Y is taken as Z followed by X, which differs from it by a phase
    only.  A measurement leaves the state alone: the qubits measured are
    never acted on again and nothing is conditioned on an outcome, so
    reading all of them from the final state gives the distribution of a
    shot. *)

Module Simulator.
Import Kernel.

(** The position of a qubit in the register: the data qubits first, then
    the ancillas (or the flags) in allocation order. *)
Definition qidx (q : qref) : nat :=
  match q with
  | Data i => i
  | Anc i => (7 + i)%nat
  | Flag i => (7 + i)%nat
  end.

Abbreviation state := (gmap (list bool) Z).

(** Adding an amplitude to a basis state; a basis state whose amplitude
    cancels is removed. *)
Definition add_amp (b : list bool) (a : Z) (st : state) : state :=
  partial_alter (fun o => let s := a + default 0 o in
                          if s =? 0 then None else Some s) b st.

Definition signed (b : list bool) (i : nat) (a : Z) : Z :=
  if bit b i then - a else a.

Definition apply_h (i : nat) (st : state) : state :=
  map_fold (fun b a acc =>
              add_amp (<[i := false]> b) a
                (add_amp (<[i := true]> b) (signed b i a) acc)) ∅ st.

Definition apply_x (i : nat) (st : state) : state :=
  map_fold (fun b a acc => add_amp (alter negb i b) a acc) ∅ st.

Definition apply_z (i : nat) (st : state) : state :=
  map_fold (fun b a acc => add_amp b (signed b i a) acc) ∅ st.

Definition apply_cx (c t : nat) (st : state) : state :=
  map_fold (fun b a acc => add_amp (cx_basis c t b) a acc) ∅ st.

Definition apply_gate (g : gate) (st : state) : state :=
  match g with
  | GH q => apply_h (qidx q) st
  | GX q => apply_x (qidx q) st
  | GZ q => apply_z (qidx q) st
  | GY q => apply_x (qidx q) (apply_z (qidx q) st)
  | GCX c t => apply_cx (qidx c) (qidx t) st
  | GMeasure _ => st
  end.

(** The register of a circuit: as many qubits as its highest position
    requires, at least the 7 data qubits, all in 0. *)
Definition register_size (c : list gate) : nat :=
  foldr Nat.max 7%nat ((fun q => S (qidx q)) <$> touched c).

Definition initial (n : nat) : state := {[ replicate n false := 1 ]}.

Definition final_state (c : list gate) : state :=
  foldl (fun st g => apply_gate g st) (initial (register_size c)) c.

(** A shot: the bits of the measured qubits, in program order, as the
    boolean row a sampler returns. *)
Definition shot_of (c : list gate) (b : list bool) : list bool :=
  (fun q => bit b (qidx q)) <$> measured c.

(** Reading all measurements from the final state is sound when no gate
    acts on a qubit after it has been measured. *)
Fixpoint measured_last (c : list gate) : bool :=
  match c with
  | [] => true
  | GMeasure q :: c' =>
      bool_decide (qidx q ∉ qidx <$> touched c') && measured_last c'
  | _ :: c' => measured_last c'
  end.

(** The weight of every shot: the sum of the squared amplitudes of the
    basis states that read as that shot.  The probability of a shot is its
    weight over the total weight. *)
Definition shot_weights (c : list gate) : gmap (list bool) Z :=
  map_fold (fun b a acc =>
              partial_alter (fun o => Some (a * a + default 0 o))
                            (shot_of c b) acc) ∅ (final_state c).

Definition total_weight (w : gmap (list bool) Z) : Z :=
  map_fold (fun _ a acc => a + acc) 0 w.

Definition weight_of (w : gmap (list bool) Z) (test : list bool → bool) : Q :=
  (total_weight (filter (fun kv => test kv.1 = true) w) # 1)
  / (total_weight w # 1).

(** The probability that a shot satisfies a test. *)
Definition probability (c : list gate) (test : list bool → bool) : Q :=
  weight_of (shot_weights c) test.

(** The shots that can occur, in increasing order of their encoding. *)
Definition possible_shots (c : list gate) : list (list bool) :=
  (map_to_list (shot_weights c)).*1.

(** A row of bits read as the tuple of integers it compares equal to. *)
Definition as_ints (row : list bool) : list Z :=
  (fun b : bool => if b then 1 else 0) <$> row.

End Simulator.

(** ** Sampled shots and their analysis

    A compiled sampler returns a two-dimensional boolean array with one
    row per shot and one column per measurement, in program order.  The
    analysis functions slice it with tuple indices ([samples[:, a:b]]),
    which an array accepts and a Python list does not, so the two kinds of
    container are kept apart. *)

Module Samples.
Import Py.

Abbreviation shot := (list bool).

Inductive samples : Type :=
| NdArray (rows : list shot)
| PyList (rows : list shot).

Definition rows_of (s : samples) : list shot :=
  match s with NdArray rows | PyList rows => rows end.

(** [len(samples)] *)
Definition len (s : samples) : Z := Z.of_nat (length (rows_of s)).

(** A bound of a slice over [n] elements: a negative bound counts from the
    end, and the result is clipped to [0..n]. *)
Definition slice_bound (n : nat) (i : Z) : nat :=
  Z.to_nat (Z.min (Z.of_nat n) (Z.max 0 (if i <? 0 then i + Z.of_nat n else i))).

(** [l[start:stop]], a missing bound being [None]. *)
Definition py_slice {A} (start stop : option Z) (l : list A) : list A :=
  let n := length l in
  let a := from_option (slice_bound n) 0%nat start in
  let b := from_option (slice_bound n) n stop in
  take (b - a) (drop a l).

(** [samples[:, start:stop]] *)
Definition columns (start stop : option Z) (s : samples) : result (list shot) :=
  match s with
  | NdArray rows => Ok (py_slice start stop <$> rows)
  | PyList _ => Raise TypeError
  end.

(** [samples[i]] for an index produced by [enumerate]. *)
Definition getitem {A} (l : list A) (i : nat) : result A :=
  match l !! i with
  | Some x => Ok x
  | None => Raise IndexError
  end.

(** [all(s == 0 for s in syndrome)] *)
Definition all_zero (syndrome : shot) : bool := forallb negb syndrome.

(** [x / y] on two counts. *)
Definition div_counts (x y : Z) : result Q := py_div (inject_Z x) (inject_Z y).

(** The number of elements that pass a test. *)
Definition count_if {A} (test : A → bool) (l : list A) : Z :=
  Z.of_nat (length (filter (fun x => test x = true) l)).

End Samples.

(** *** Segment 2.3: analysis and post-selection *)

Module MultiRoundAnalysis.
Import Py Samples.
Export MultiRoundQec.

Definition syndromes_per_round : Z := 6.

(** [''.join(map(str, [int(x) for x in data]))] read against the set of
    codewords. *)
Definition is_codeword (data : shot) : bool :=
  bool_decide (bitstring data ∈ steane_zero_codewords).

(** The returned value is the logical fidelity; every round first prints
    the fraction of its all-zero syndromes, which divides by the number of
    shots as well. *)
Definition analyze_multi_round_results (s : samples) (num_rounds : Z)
  : result Q :=
  let total_syndrome_measurements := num_rounds * syndromes_per_round in
  all_syndromes ← columns None (Some total_syndrome_measurements) s;
  final_data ← columns (Some total_syndrome_measurements) None s;
  (* Analyze each round *)
  _ ← mapM (fun round_idx =>
              let start := round_idx * syndromes_per_round in
              let end_ := (round_idx + 1) * syndromes_per_round in
              let round_syndromes :=
                py_slice (Some start) (Some end_) <$> all_syndromes in
              div_counts (count_if all_zero round_syndromes) (len s))
           (seqZ 0 num_rounds);
  (* Analyze final data measurements *)
  let valid_count := count_if is_codeword final_data in
  div_counts valid_count (len s).

(** The indices that [enumerate] pairs with the rows passing the test. *)
Definition selected_indices (all_syndromes : list shot) : list nat :=
  (filter (fun ix : nat * shot => all_zero ix.2 = true)
          (imap pair all_syndromes)).*1.

Definition post_select_on_syndromes (s : samples) (num_rounds : Z)
  : result samples :=
  let total_syndrome_measurements := num_rounds * syndromes_per_round in
  all_syndromes ← columns None (Some total_syndrome_measurements) s;
  let idxs := selected_indices all_syndromes in
  if bool_decide (length idxs = 0%nat) then
    Ok (NdArray (py_slice None (Some 0) (rows_of s)))
  else
    selected_samples ← mapM (getitem (rows_of s)) idxs;
    _ ← getitem (rows_of s) 0;
    _ ← div_counts (Z.of_nat (length selected_samples)) (len s);
    Ok (PyList selected_samples).

(** [test_post_selection] on the shots it has sampled: the improvement it
    prints, or [None] when it prints that no shot passed. *)
Definition test_post_selection (s : samples) : result (option Q) :=
  let num_rounds := 3 in
  fidelity_no_ps ← analyze_multi_round_results s num_rounds;
  selected_samples ← post_select_on_syndromes s num_rounds;
  if 0 <? len selected_samples then
    fidelity_with_ps ← analyze_multi_round_results selected_samples num_rounds;
    Ok (Some (fidelity_with_ps - fidelity_no_ps)%Q)
  else Ok None.

(** The fraction of the rows whose final data bits spell a codeword. *)
Definition valid_fraction (rows : list shot) (num_rounds : Z) : Q :=
  Qdiv (inject_Z (count_if (fun row =>
          is_codeword (py_slice (Some (num_rounds * syndromes_per_round)) None row))
        rows))
       (inject_Z (Z.of_nat (length rows))).

(** The rows post-selection is meant to keep. *)
Definition clean (num_rounds : Z) (row : shot) : bool :=
  all_zero (py_slice None (Some (num_rounds * syndromes_per_round)) row).

End MultiRoundAnalysis.

(** *** Segment 3.2: the logical error rate of a sample *)

Module ScalingMeasurement.
Import Py Samples.

Definition steane_zero_codewords : gset string :=
  {[ "0000000"; "1010101"; "0110011"; "1100110";
     "0001111"; "1011010"; "0111100"; "1101001" ]}.

(** [measure_logical_error_rate] from the array the sampler returned for
    [shots] shots. *)
Definition measure_logical_error_rate (s : samples) (rounds shots : Z)
  : result Q :=
  let syndromes_per_round := 6 in
  let syndrome_offset := rounds * syndromes_per_round in
  final_data ← columns (Some syndrome_offset) None s;
  let valid_count :=
    count_if (fun data => bool_decide (bitstring data ∈ steane_zero_codewords))
             final_data in
  logical_fidelity ← div_counts valid_count shots;
  Ok (1 - logical_fidelity)%Q.

End ScalingMeasurement.

(** *** Segment 2.2: syndrome histogram *)

Module ExtractionAnalysis.
Import Py Samples.

(** [d[k] = d.get(k, 0) + 1] *)
Definition bump (d : gmap string Z) (k : string) : gmap string Z :=
  <[k := default 0 (d !! k) + 1]> d.

(** The sum of the counts of a dict. *)
Definition total (d : gmap string Z) : Z :=
  map_fold (fun _ n acc => n + acc) 0 d.

(** The returned dict: for every syndrome string, how many shots showed
    it.  The all-zero fraction is printed before returning. *)
Definition analyze_syndromes (s : samples) : result (gmap string Z) :=
  syndromes ← columns None (Some 6) s;
  data ← columns (Some 6) (Some 13) s;
  let syndrome_counts := foldl bump ∅ (bitstring <$> syndromes) in
  let all_zero := default 0 (syndrome_counts !! "000000") in
  _ ← div_counts all_zero (len s);
  Ok syndrome_counts.

End ExtractionAnalysis.

(** *** Segment 5.1: rounds with and without a detection *)

Module DecodingAnalysis.
Import Py Samples.

(** [any(s != 0 for s in round_syndrome)] *)
Definition any_set (round_syndrome : shot) : bool := existsb id round_syndrome.

(** The two counters, [rounds_with_errors] and [rounds_clean], after the
    loops over the shots and over the rounds of each shot. *)
Definition count_rounds (results : list shot) (num_rounds : Z) : Z * Z :=
  let syndrome_bits := num_rounds * 6 in
  foldl (fun counters shot =>
           let syndromes := py_slice None (Some syndrome_bits) shot in
           foldl (fun counters r =>
                    let round_syndrome :=
                      py_slice (Some (r * 6)) (Some ((r + 1) * 6)) syndromes in
                    if any_set round_syndrome
                    then (counters.1 + 1, counters.2)
                    else (counters.1, counters.2 + 1))
                 counters (seqZ 0 num_rounds))
        (0, 0) results.

Section Rendering.
(** [''.join(map(str, row))]: the bits of a row are joined as [str] prints
    them, without conversion, so the string depends on the element type of
    the sampled rows, which the sources do not fix. *)
Variable join_str : shot → string.

(** One noise level of [analyze_multi_round_syndromes], on the shots
    sampled for it: the two counters it prints.  The percentages divide by
    [shots * num_rounds] and the fidelity printed last by [shots]. *)
Definition analyze_multi_round_syndromes
    (results : list shot) (num_rounds shots : Z) : result (Z * Z) :=
  let syndrome_bits := num_rounds * 6 in
  let counters := count_rounds results num_rounds in
  let total_rounds := shots * num_rounds in
  _ ← div_counts (100 * counters.1) total_rounds;
  _ ← div_counts (100 * counters.2) total_rounds;
  let final_data := (fun shot => join_str (py_slice (Some syndrome_bits) None shot))
                    <$> results in
  let valid_count :=
    count_if (fun bs => bool_decide (bs ∈ ImprovedEncoding.valid_codewords))
             final_data in
  _ ← div_counts valid_count shots;
  Ok counters.

End Rendering.

End DecodingAnalysis.

(** * Properties *)

Import Py SyndromeDecoding.

(** ** The lookup table as a dict *)

Section DictOfItems.
Context {V : Type}.
Implicit Types (items : list (syndrome * V)) (d : gmap syndrome V).

Lemma foldl_insert_lookup items d s v :
  foldl (fun d kv => <[kv.1 := kv.2]> d) d items !! s = Some v →
  (s, v) ∈ items ∨ d !! s = Some v.
Proof.
  revert d. induction items as [|[k w] items IH]; intros d; simpl.
  - by right.
  - intros [Hin | Hd]%IH.
    + left. by right.
    + destruct (decide (k = s)) as [->|Hne].
      * rewrite lookup_insert_eq in Hd. injection Hd as ->. left. by left.
      * rewrite lookup_insert_ne in Hd by done. by right.
Qed.

Lemma foldl_insert_fresh items d s :
  s ∉ items.*1 →
  foldl (fun d kv => <[kv.1 := kv.2]> d) d items !! s = d !! s.
Proof.
  revert d. induction items as [|[k w] items IH]; intros d Hs; simpl; [done|].
  rewrite fmap_cons, not_elem_of_cons in Hs. destruct Hs as [Hne Hs].
  rewrite IH by done. by rewrite lookup_insert_ne.
Qed.

(** Every entry of the dict is an item of the literal. *)
Lemma dict_of_items_lookup items s v :
  dict_of_items items !! s = Some v → (s, v) ∈ items.
Proof.
  intros [H|H]%foldl_insert_lookup; [done|].
  by rewrite lookup_empty in H.
Qed.

(** With no key repeated, every item of the literal is in the dict. *)
Lemma dict_of_items_elem_of items s v :
  NoDup items.*1 → (s, v) ∈ items → dict_of_items items !! s = Some v.
Proof.
  unfold dict_of_items. generalize (∅ : gmap syndrome V).
  induction items as [|[k w] items IH]; intros d Hnd Hin.
  - by apply elem_of_nil in Hin.
  - rewrite fmap_cons in Hnd. apply NoDup_cons in Hnd as [Hk Hnd].
    apply elem_of_cons in Hin as [[= -> ->]|Hin]; simpl.
    + rewrite foldl_insert_fresh by done. apply lookup_insert_eq.
    + by apply IH.
Qed.
End DictOfItems.

(** No key is written twice in the table literal, nor any value. *)
Lemma table_keys_NoDup : NoDup STEANE_SYNDROME_TABLE_items.*1.
Proof. compute_done. Qed.

Lemma table_values_NoDup : NoDup STEANE_SYNDROME_TABLE_items.*2.
Proof. compute_done. Qed.

Lemma table_lookup_items s r :
  STEANE_SYNDROME_TABLE !! s = Some r ↔ (s, r) ∈ STEANE_SYNDROME_TABLE_items.
Proof.
  split.
  - apply dict_of_items_lookup.
  - apply dict_of_items_elem_of, table_keys_NoDup.
Qed.

(** The decoder answers with the table's value exactly on the table's keys. *)
Lemma decode_syndrome_listed s r :
  (s, r) ∈ STEANE_SYNDROME_TABLE_items → decode_syndrome s = r.
Proof.
  intros H%table_lookup_items. unfold decode_syndrome. by rewrite H.
Qed.

Lemma decode_syndrome_cases s :
  (s, decode_syndrome s) ∈ STEANE_SYNDROME_TABLE_items
  ∨ ((s ∉ STEANE_SYNDROME_TABLE_items.*1) ∧ decode_syndrome s = UNCORRECTABLE).
Proof.
  unfold decode_syndrome.
  destruct (STEANE_SYNDROME_TABLE !! s) as [r|] eqn:E.
  - left. by apply table_lookup_items.
  - right. split; [|done].
    intros Hin. apply list_elem_of_fmap in Hin as ([s' r] & -> & Hin).
    apply table_lookup_items in Hin. simpl in E. congruence.
Qed.

(** ** The 6-bit syndromes are the 64 enumerated tuples *)

Lemma all_syndromes_are_syndromes : Forall is_syndrome all_syndromes.
Proof. compute_done. Qed.

Lemma is_syndrome_enum s : is_syndrome s ↔ s ∈ all_syndromes.
Proof.
  split.
  - intros [Hlen Hbits].
    do 7 (destruct s as [|? s]; try discriminate Hlen).
    repeat match goal with
           | H : Forall _ (_ :: _) |- _ => apply Forall_cons in H as [[-> | ->] H]
           end; compute_done.
  - intros Hin. by apply (proj1 (Forall_forall _ _) all_syndromes_are_syndromes).
Qed.

Lemma all_syndromes_NoDup : NoDup all_syndromes.
Proof. compute_done. Qed.

(** A property that holds on the enumeration holds of every 6-bit syndrome. *)
Lemma syndrome_ind (P : syndrome → Prop) :
  Forall P all_syndromes → ∀ s, is_syndrome s → P s.
Proof.
  intros HP s Hs%is_syndrome_enum. by apply (proj1 (Forall_forall _ _) HP).
Qed.

(** ** Decoder: single-qubit errors (C4, C2) *)

(** The generators read off the extraction circuit. *)
Lemma generators_eq :
  x_generators = [[0; 1; 2; 3]; [0; 1; 4; 5]; [0; 2; 4; 6]]%nat
  ∧ z_generators = [[0; 1; 2; 3]; [0; 1; 4; 5]; [0; 2; 4; 6]]%nat
  ∧ generators = ((fun g => (XType, g)) <$> x_generators)
                 ++ ((fun g => (ZType, g)) <$> z_generators).
Proof. by vm_compute. Qed.

(** The measured generators commute with one another. *)
Lemma generators_commute :
  Forall (fun g => Forall (fun g' =>
            anticommute (generator_op g) (generator_op g') = false) generators)
         generators.
Proof. compute_done. Qed.

(** The syndrome rule of the data model agrees with commutation: bit [i] is
    set exactly when the error anticommutes with generator [i]. *)
Lemma syndrome_rule_is_commutation k q :
  (q < 7)%nat → syndrome_of k q = commutation_syndrome k q.
Proof.
  intros Hq. do 7 (destruct q as [|q]; [by destruct k|]). lia.
Qed.

(** C4: for every qubit q in [0,7), the syndrome of an X error on q has
    zero X-generator bits and the Z-generator membership bits of q and
    decodes to ('X', q); the syndrome of a Z error on q has the X-generator
    membership bits of q and zero Z-generator bits and decodes to ('Z', q);
    the generator supports are {0,1,2,3}, {0,1,4,5}, {0,2,4,6} for both
    types, and the 14 syndromes are pairwise distinct. *)
Theorem single_error_decoding (q : nat) (Hq : (q < 7)%nat) :
  syndrome_of PX q = [0; 0; 0] ++ support_bits q z_generators
  ∧ decode_syndrome (syndrome_of PX q) = (PyStr "X", PyInt (Z.of_nat q))
  ∧ syndrome_of PZ q = support_bits q x_generators ++ [0; 0; 0]
  ∧ decode_syndrome (syndrome_of PZ q) = (PyStr "Z", PyInt (Z.of_nat q))
  ∧ x_generators = [[0; 1; 2; 3]; [0; 1; 4; 5]; [0; 2; 4; 6]]%nat
  ∧ z_generators = [[0; 1; 2; 3]; [0; 1; 4; 5]; [0; 2; 4; 6]]%nat
  ∧ NoDup xz_syndromes.
Proof.
  do 7 (destruct q as [|q]; [by repeat split; try compute_done|]).
  lia.
Qed.

Lemma single_error_decoding_witness :
  (3 < 7)%nat
  ∧ decode_syndrome (syndrome_of PX 3) = (PyStr "X", PyInt 3)
  ∧ decode_syndrome (syndrome_of PZ 3) = (PyStr "Z", PyInt 3).
Proof.
  assert (H : (3 < 7)%nat) by lia.
  destruct (single_error_decoding 3 H) as (_ & HX & _ & HZ & _).
  exact (conj H (conj HX HZ)).
Defined.

(** ** Decoder: totality and coverage (C5) *)

(** C5 as stated fails: the number of 6-bit syndromes with a
    non-uncorrectable result is not 1 + 14; (1,1,1,1,1,1) is one of those
    beyond the X and Z ones. *)
Lemma correctable_count_not_15 :
  length correctable_syndromes ≠ (1 + 14)%nat
  ∧ is_syndrome [1; 1; 1; 1; 1; 1]
  ∧ decode_syndrome [1; 1; 1; 1; 1; 1] = (PyStr "Y", PyInt 0).
Proof. split; [by vm_compute | split; [compute_done | by vm_compute]]. Qed.

Lemma single_errors_lt : Forall (fun e => (e.2 < 7)%nat) single_errors.
Proof. repeat constructor; simpl; lia. Qed.

(** The three shapes of a result exclude one another. *)
Lemma result_shapes_disjoint k q :
  NO_ERROR ≠ UNCORRECTABLE
  ∧ single (pauli_name k) q ≠ NO_ERROR
  ∧ single (pauli_name k) q ≠ UNCORRECTABLE.
Proof. by destruct k. Qed.

(** C5, amended: every 6-bit syndrome decodes to exactly one of the
    no-error result, a single (kind, qubit) pair with kind in {X, Y, Z} and
    qubit in [0,7), or ('Unknown', -1); and exactly 1 + 21 = 22 syndromes -
    the no-error one plus one per (qubit, kind) pair for the 7 qubits and
    kinds {X, Y, Z} - decode to a non-uncorrectable result. *)
Theorem decode_total (s : syndrome) (Hs : is_syndrome s) :
  (decode_syndrome s = NO_ERROR
   ∨ (∃ k q, (q < 7)%nat ∧ decode_syndrome s = single (pauli_name k) (Z.of_nat q))
   ∨ decode_syndrome s = UNCORRECTABLE)
  ∧ (decode_syndrome s ≠ UNCORRECTABLE ↔ s ∈ correctable_syndromes)
  ∧ length correctable_syndromes = (1 + 21)%nat
  ∧ correctable_syndromes
    ≡ₚ no_error_syndrome :: ((fun e => syndrome_of e.1 e.2) <$> single_errors)
  ∧ NoDup correctable_syndromes.
Proof.
  split; [|split; [|split; [by vm_compute | split]]].
  - revert s Hs. apply syndrome_ind.
    assert (H : Forall (fun s =>
      decode_syndrome s = NO_ERROR
      ∨ Exists (fun e =>
          decode_syndrome s = single (pauli_name e.1) (Z.of_nat e.2)) single_errors
      ∨ decode_syndrome s = UNCORRECTABLE) all_syndromes) by compute_done.
    eapply Forall_impl; [exact H|]. clear.
    intros s [H|[H|H]]; [by left| |by right; right].
    right; left. apply Exists_exists in H as ([k q] & Hin & Hd).
    exists k, q. split; [|done].
    by apply (proj1 (Forall_forall _ _) single_errors_lt (k, q)).
  - unfold correctable_syndromes. rewrite list_elem_of_filter.
    apply is_syndrome_enum in Hs. tauto.
  - apply NoDup_Permutation; [|compute_done|].
    + apply NoDup_filter, all_syndromes_NoDup.
    + intros x. split; intros Hx.
      * assert (H : Forall (fun s => s ∈ no_error_syndrome ::
            ((fun e => syndrome_of e.1 e.2) <$> single_errors))
            correctable_syndromes) by compute_done.
        by apply (proj1 (Forall_forall _ _) H).
      * assert (H : Forall (fun s => s ∈ correctable_syndromes)
            (no_error_syndrome ::
             ((fun e => syndrome_of e.1 e.2) <$> single_errors))) by compute_done.
        by apply (proj1 (Forall_forall _ _) H).
  - apply NoDup_filter, all_syndromes_NoDup.
Qed.

Lemma decode_total_witness :
  is_syndrome [1; 1; 0; 0; 1; 1]
  ∧ decode_syndrome [1; 1; 0; 0; 1; 1] = UNCORRECTABLE
  ∧ length correctable_syndromes = 22%nat.
Proof.
  assert (Hs : is_syndrome [1; 1; 0; 0; 1; 1]).
  { split; [reflexivity | repeat constructor; (by left) || (by right)]. }
  destruct (decode_total _ Hs) as (_ & _ & Hn & _).
  split; [exact Hs | split; [reflexivity | exact Hn]].
Defined.

(** ** Decoder: injectivity of the table (C6) *)

Lemma pauli_name_inj k1 k2 : pauli_name k1 = pauli_name k2 → k1 = k2.
Proof. by destruct k1, k2. Qed.

(** C6 as stated fails at the all-zero syndrome: no listed single-qubit
    error produces it, and it does not decode to the uncorrectable
    result. *)
Lemma zero_syndrome_not_uncorrectable :
  is_syndrome [0; 0; 0; 0; 0; 0]
  ∧ (∀ k q, ¬ listed_at [0; 0; 0; 0; 0; 0] k q)
  ∧ decode_syndrome [0; 0; 0; 0; 0; 0] ≠ UNCORRECTABLE.
Proof.
  assert (Hd : decode_syndrome [0; 0; 0; 0; 0; 0] = NO_ERROR) by by vm_compute.
  split; [compute_done|]. split.
  - intros k q Hl. apply decode_syndrome_listed in Hl.
    rewrite Hd in Hl. by destruct k.
  - by rewrite Hd.
Qed.

(** Every item of the literal other than the no-error one names a
    single-qubit error of the register. *)
Lemma table_items_single s r :
  (s, r) ∈ STEANE_SYNDROME_TABLE_items → s ≠ [0; 0; 0; 0; 0; 0] →
  ∃ k q, (q < 7)%nat ∧ r = single (pauli_name k) (Z.of_nat q).
Proof.
  intros Hin Hne.
  assert (H : Forall (fun kv : syndrome * (pyval * pyval) =>
    kv.1 = [0; 0; 0; 0; 0; 0]
    ∨ Exists (fun e => kv.2 = single (pauli_name e.1) (Z.of_nat e.2)) single_errors)
    STEANE_SYNDROME_TABLE_items) by compute_done.
  apply (proj1 (Forall_forall _ _) H) in Hin as [?|Hex]; [done|].
  apply Exists_exists in Hex as ([k q] & Hin & Heq). simpl in Heq.
  exists k, q. split; [|done].
  by apply (proj1 (Forall_forall _ _) single_errors_lt (k, q)).
Qed.

(** C6, amended: no key is written twice in the table; no two distinct
    single-qubit errors listed in it share a syndrome key, and no error is
    listed under two keys; every
    table entry other than the all-zero syndrome corresponds to exactly one
    single-qubit error; and every 6-bit syndrome other than the all-zero one
    that no listed single-qubit error produces decodes to ('Unknown', -1),
    the all-zero one decoding to the no-error result. *)
Theorem table_injective (s : syndrome) :
  NoDup (STEANE_SYNDROME_TABLE_items.*1)
  ∧ (∀ k1 q1 k2 q2, listed_at s k1 q1 → listed_at s k2 q2 → (k1, q1) = (k2, q2))
  ∧ (∀ k q s', listed_at s k q → listed_at s' k q → s = s')
  ∧ (∀ r, STEANE_SYNDROME_TABLE !! s = Some r → s ≠ [0; 0; 0; 0; 0; 0] →
          ∃ k q, (q < 7)%nat ∧ r = single (pauli_name k) (Z.of_nat q)
                 ∧ ∀ k' q', listed_at s k' q' → (k', q') = (k, Z.of_nat q))
  ∧ (s ≠ [0; 0; 0; 0; 0; 0] → (∀ k q, ¬ listed_at s k q) →
     decode_syndrome s = UNCORRECTABLE)
  ∧ decode_syndrome [0; 0; 0; 0; 0; 0] = NO_ERROR.
Proof.
  assert (Hinj : ∀ k1 q1 k2 q2,
    listed_at s k1 q1 → listed_at s k2 q2 → (k1, q1) = (k2, q2)).
  { intros k1 q1 k2 q2 H1%decode_syndrome_listed H2%decode_syndrome_listed.
    rewrite H1 in H2. injection H2 as Hk ->. by apply pauli_name_inj in Hk as ->. }
  split; [apply table_keys_NoDup|].
  split; [exact Hinj|]. split; [|split; [|split; [|by vm_compute]]].
  - intros k q s' H1 H2.
    apply list_elem_of_lookup in H1 as [i Hi], H2 as [j Hj].
    assert (i = j) as ->.
    { eapply (NoDup_lookup _ i j); [apply table_values_NoDup | |].
      - rewrite list_lookup_fmap, Hi. reflexivity.
      - rewrite list_lookup_fmap, Hj. reflexivity. }
    congruence.
  - intros r Hr%table_lookup_items Hne.
    destruct (table_items_single _ _ Hr Hne) as (k & q & Hq & ->).
    exists k, q. repeat split; [done|].
    intros k' q' Hl. by apply Hinj.
  - intros Hne Hnone.
    destruct (decode_syndrome_cases s) as [Hin|[_ Hd]]; [|done].
    destruct (table_items_single _ _ Hin Hne) as (k & q & _ & Hr).
    rewrite Hr in Hin. by apply Hnone in Hin.
Qed.

Lemma table_injective_witness :
  is_syndrome [1; 1; 0; 0; 1; 1]
  ∧ decode_syndrome [1; 1; 0; 0; 1; 1] = UNCORRECTABLE.
Proof.
  assert (Hs : is_syndrome [1; 1; 0; 0; 1; 1]).
  { split; [reflexivity | repeat constructor; (by left) || (by right)]. }
  split; [exact Hs|].
  destruct (table_injective [1; 1; 0; 0; 1; 1]) as (_ & _ & _ & _ & Hunc & _).
  apply Hunc; [discriminate|].
  intros k q Hl. apply decode_syndrome_listed in Hl.
  destruct k; discriminate Hl.
Defined.

(** ** Decoder: the Y entries (C10) *)

(** The listed syndromes are those of [listed_at]. *)
Lemma listed_syndrome_listed_at k q s :
  listed_syndrome k q = Some s → listed_at s k (Z.of_nat q).
Proof.
  unfold listed_syndrome, listed_at. intros H.
  destruct (list_find _ _) as [[i [s' r]]|] eqn:E; [|done].
  injection H as <-. apply list_find_Some in E as (Hi & Hr & _).
  simpl in Hr. rewrite <- Hr. by eapply list_elem_of_lookup_2.
Qed.

(** C10: for every qubit q in [0,7) the table lists a syndrome for the X,
    the Z and the Y error on q; the Y one is the componentwise XOR, and
    also the componentwise OR, of the other two, the X one having zero
    X-generator bits and the Z one zero Z-generator bits; so all 7 Y errors
    are covered, each by a syndrome whose first and last three bits are
    both nonzero. *)
Theorem y_entries_are_xor (q : nat) (Hq : (q < 7)%nat) :
  ∃ sx sz sy,
    listed_syndrome PX q = Some sx
    ∧ listed_syndrome PZ q = Some sz
    ∧ listed_syndrome PY q = Some sy
    ∧ sy = syndrome_xor sx sz
    ∧ sy = syndrome_or sx sz
    ∧ take 3 sx = [0; 0; 0]
    ∧ drop 3 sz = [0; 0; 0]
    ∧ take 3 sy ≠ [0; 0; 0]
    ∧ drop 3 sy ≠ [0; 0; 0]
    ∧ decode_syndrome sy = (PyStr "Y", PyInt (Z.of_nat q)).
Proof.
  do 7 (destruct q as [|q];
        [eexists _, _, _; repeat split; by vm_compute|]).
  lia.
Qed.

Lemma y_entries_are_xor_witness :
  (5 < 7)%nat
  ∧ ∃ sx sz sy,
      listed_syndrome PX 5 = Some sx
      ∧ listed_syndrome PZ 5 = Some sz
      ∧ listed_syndrome PY 5 = Some sy
      ∧ sy = syndrome_xor sx sz.
Proof.
  assert (H : (5 < 7)%nat) by lia.
  split; [exact H|].
  destruct (y_entries_are_xor 5 H) as (sx & sz & sy & HX & HZ & HY & Hxor & _).
  exists sx, sz, sy. exact (conj HX (conj HZ (conj HY Hxor))).
Defined.

(** ** Correction (C8) *)

Lemma apply_correction_pauli n k q :
  0 ≤ q < Z.of_nat n →
  apply_correction n (PyStr (pauli_name k)) (PyInt q)
  = Ok [pauli_gate k (Data (Z.to_nat q))].
Proof.
  intros Hq. unfold apply_correction, py_index.
  assert ((q <? 0) = false) as -> by lia.
  assert ((0 <=? q) && (q <? Z.of_nat n) = true) as ->
    by (apply andb_true_intro; lia).
  by destruct k.
Qed.

Lemma apply_correction_other n error_type qubit_idx :
  error_type ≠ PyStr "X" → error_type ≠ PyStr "Y" → error_type ≠ PyStr "Z" →
  apply_correction n error_type qubit_idx = Ok [].
Proof.
  intros HX HY HZ. unfold apply_correction.
  by repeat (case_decide; [done|]).
Qed.

(** C8 as stated fails: the shot is not flagged.  For the syndrome
    (1,0,1,0,0,1), which decodes to the uncorrectable result,
    apply_correction issues no operation and returns nothing: what it
    leaves is what it leaves for the all-zero syndrome, which decodes to
    no error.  Nothing tells the one shot from the other. *)
Lemma uncorrectable_shot_not_flagged :
  decode_syndrome [1; 0; 1; 0; 0; 1] = UNCORRECTABLE
  ∧ decode_syndrome [0; 0; 0; 0; 0; 0] = NO_ERROR
  ∧ apply_correction 7 (decode_syndrome [1; 0; 1; 0; 0; 1]).1
                       (decode_syndrome [1; 0; 1; 0; 0; 1]).2 = Ok []
  ∧ apply_correction 7 (decode_syndrome [1; 0; 1; 0; 0; 1]).1
                       (decode_syndrome [1; 0; 1; 0; 0; 1]).2
    = apply_correction 7 (decode_syndrome [0; 0; 0; 0; 0; 0]).1
                         (decode_syndrome [0; 0; 0; 0; 0; 0]).2.
Proof. by vm_compute. Qed.

(** C8, amended: when the decoder returns the uncorrectable result,
    apply_correction issues no operation and nothing is recorded for the
    shot: the outcome is the one of the no-error result (the syndrome is
    not the all-zero one, the only one the post-selection of the code
    keeps); when it returns
    (kind, q) with kind in {X, Y, Z}, q is a qubit of the register and
    apply_correction issues exactly one Pauli gate of that kind on qubit q,
    touching no other qubit; and for every error type outside {X, Y, Z}, on
    any index, it issues nothing, so the data register is left as it
    was. *)
Theorem correction_policy (s : syndrome) :
  (decode_syndrome s = UNCORRECTABLE →
   apply_correction 7 (decode_syndrome s).1 (decode_syndrome s).2 = Ok []
   ∧ apply_correction 7 (decode_syndrome s).1 (decode_syndrome s).2
     = apply_correction 7 NO_ERROR.1 NO_ERROR.2
   ∧ s ≠ [0; 0; 0; 0; 0; 0])
  ∧ (∀ k q, decode_syndrome s = single (pauli_name k) q →
       0 ≤ q < 7
       ∧ apply_correction 7 (decode_syndrome s).1 (decode_syndrome s).2
         = Ok [pauli_gate k (Data (Z.to_nat q))]
       ∧ touched [pauli_gate k (Data (Z.to_nat q))] = [Data (Z.to_nat q)])
  ∧ (∀ n error_type qubit_idx,
       error_type ≠ PyStr "X" → error_type ≠ PyStr "Y" → error_type ≠ PyStr "Z" →
       apply_correction n error_type qubit_idx = Ok []
       ∧ touched [] = []
       ∧ ∀ b : basis, run_basis [] b = b).
Proof.
  split; [|split].
  - intros Hu. split; [|split].
    + rewrite Hu. by vm_compute.
    + rewrite Hu. by vm_compute.
    + intros ->. by vm_compute in Hu.
  - intros k q Hd.
    assert (Hq : 0 ≤ q < 7).
    { destruct (decode_syndrome_cases s) as [Hin|[_ Hu]].
      - assert (Hne : s ≠ [0; 0; 0; 0; 0; 0]).
        { intros ->. by destruct k. }
        destruct (table_items_single _ _ Hin Hne) as (k' & q' & Hq' & Hr).
        rewrite Hd in Hr. injection Hr as _ ->. lia.
      - rewrite Hd in Hu. by destruct k. }
    rewrite Hd. simpl. split; [done|]. split.
    + by apply apply_correction_pauli.
    + by destruct k.
  - intros n et idx HX HY HZ. split; [|done].
    by apply apply_correction_other.
Qed.

Lemma correction_policy_witness :
  decode_syndrome [1; 1; 0; 0; 1; 1] = UNCORRECTABLE
  ∧ apply_correction 7 (decode_syndrome [1; 1; 0; 0; 1; 1]).1
                       (decode_syndrome [1; 1; 0; 0; 1; 1]).2 = Ok []
  ∧ apply_correction 7 (decode_syndrome [0; 0; 0; 0; 1; 1]).1
                       (decode_syndrome [0; 0; 0; 0; 1; 1]).2 = Ok [GX (Data 4)].
Proof.
  assert (Hu : decode_syndrome [1; 1; 0; 0; 1; 1] = UNCORRECTABLE) by reflexivity.
  assert (Hx : decode_syndrome [0; 0; 0; 0; 1; 1] = single (pauli_name PX) 4)
    by reflexivity.
  split; [exact Hu|]. split.
  - exact (proj1 (proj1 (correction_policy [1; 1; 0; 0; 1; 1]) Hu)).
  - exact (proj1 (proj2 (proj1 (proj2 (correction_policy [0; 0; 0; 0; 1; 1]))
                           PX 4 Hx))).
Defined.

(** ** Encoders (C7, C1) *)

(** The three copies of the naive encoder are the same gate sequence. *)
Lemma naive_encoders_same :
  SyndromeDecoding.prepare_steane_logical_zero
  = MultiRoundQec.prepare_steane_logical_zero.
Proof. reflexivity. Qed.

(** The two spellings of the codeword set are the same set. *)
Lemma codeword_sets_same :
  ImprovedEncoding.valid_codewords = MultiRoundQec.steane_zero_codewords.
Proof. compute_done. Qed.

(** C7: the naive and the depth-optimized encoder are equivalent.  For
    every assignment of the three superposition bits the two CNOT schedules
    give the same 7-bit output, qubits 3..6 receiving the parities a+b, a+c,
    b+c, a+b+c; the schedules agree on every basis state of the register;
    both encoders have the same readouts and the same stabilizer
    generators; and the two gate sequences are rearrangements of one
    another. *)
Theorem encoders_equivalent :
  MultiRoundQec.prepare_steane_logical_zero
  ≡ₚ ImprovedEncoding.optimized_steane_encoding
  ∧ (∀ a b c : bool,
     run_basis MultiRoundQec.prepare_steane_logical_zero
       [a; b; c; false; false; false; false]
     = [a; b; c; xorb a b; xorb a c; xorb b c; xorb (xorb a b) c]
     ∧ run_basis ImprovedEncoding.optimized_steane_encoding
         [a; b; c; false; false; false; false]
       = [a; b; c; xorb a b; xorb a c; xorb b c; xorb (xorb a b) c])
  ∧ (∀ b0 b1 b2 b3 b4 b5 b6 : bool,
       run_basis MultiRoundQec.prepare_steane_logical_zero
         [b0; b1; b2; b3; b4; b5; b6]
       = run_basis ImprovedEncoding.optimized_steane_encoding
           [b0; b1; b2; b3; b4; b5; b6])
  ∧ run_branches MultiRoundQec.prepare_steane_logical_zero [qalloc 7]
    = run_branches ImprovedEncoding.optimized_steane_encoding [qalloc 7]
  ∧ (∃ outs, readouts MultiRoundQec.prepare_steane_logical_zero = Some outs
             ∧ readouts ImprovedEncoding.optimized_steane_encoding = Some outs
             ∧ length outs = 8%nat ∧ NoDup outs)
  ∧ stabilizers MultiRoundQec.prepare_steane_logical_zero
    = stabilizers ImprovedEncoding.optimized_steane_encoding.
Proof.
  split; [|split; [|split; [|split; [|split]]]].
  - apply NoDup_Permutation; [compute_done | compute_done |].
    intros g. split; intros Hg.
    + assert (H : Forall (fun g => g ∈ ImprovedEncoding.optimized_steane_encoding)
                    MultiRoundQec.prepare_steane_logical_zero) by compute_done.
      by apply (proj1 (Forall_forall _ _) H).
    + assert (H : Forall (fun g => g ∈ MultiRoundQec.prepare_steane_logical_zero)
                    ImprovedEncoding.optimized_steane_encoding) by compute_done.
      by apply (proj1 (Forall_forall _ _) H).
  - by intros [] [] [].
  - by intros [] [] [] [] [] [] [].
  - by vm_compute.
  - eexists. split; [by vm_compute|]. split; [by vm_compute|].
    split; [reflexivity | compute_done].
  - by vm_compute.
Qed.

(** The branches an encoder reaches are the images of the 8 assignments
    of the superposition bits under its CNOT schedule. *)
Lemma encoder_branches_are_images :
  run_branches MultiRoundQec.prepare_steane_logical_zero [qalloc 7]
  = Some ((fun abc : bool * bool * bool =>
             run_basis MultiRoundQec.prepare_steane_logical_zero
               [abc.1.1; abc.1.2; abc.2; false; false; false; false])
          <$> (a ← [false; true]; b ← [false; true]; c ← [false; true];
               [(a, b, c)])).
Proof. by vm_compute. Qed.

(** The encoder and the extraction circuit follow different qubit
    labellings of the code: the generators S1, S3, S4 and S6 that
    [measure_all_syndromes] measures each anticommute with a stabilizer of
    the state the encoder prepares, so only S2 and S5 have a determined
    outcome on it; and the support of S1 is neither a readout of the encoder
    nor a member of [valid_codewords]. *)
Lemma extraction_not_matched_to_encoder :
  (fun g => existsb (anticommute (generator_op g))
              (stabilizers SyndromeDecoding.prepare_steane_logical_zero))
  <$> generators
  = [true; false; true; true; false; true]
  ∧ (bitstring ∘ indicator 7) <$> x_generators = ["1111000"; "1100110"; "1010101"]
  ∧ ("1111000" ∉ ImprovedEncoding.valid_codewords)
  ∧ readouts SyndromeDecoding.prepare_steane_logical_zero
    ≠ Some ((bitstring ∘ indicator 7) <$> x_generators).
Proof.
  split; [by vm_compute|]. split; [by vm_compute|].
  split; [compute_done | by vm_compute].
Qed.

(** C1 fails on the code: of the 8 equally likely noiseless readouts of the
    encoder (naive or optimized) only 4 are in valid_codewords; the
    superposition bits (0, 0, 1) read out as 0010111, which is not among
    them; verify_codewords reports fidelity 0 on that shot alone and 1/2 on
    a sample with every readout once. *)
Theorem noiseless_readouts_leave_codewords :
  readouts SyndromeDecoding.prepare_steane_logical_zero
  = Some ["0000000"; "0010111"; "0101011"; "0111100";
          "1001101"; "1011010"; "1100110"; "1110001"]
  ∧ readouts ImprovedEncoding.optimized_steane_encoding
    = readouts SyndromeDecoding.prepare_steane_logical_zero
  ∧ bitstring (run_basis SyndromeDecoding.prepare_steane_logical_zero
                 [false; false; true; false; false; false; false])
    = "0010111"
  ∧ ("0010111" ∉ ImprovedEncoding.valid_codewords)
  ∧ ("0010111" ∉ MultiRoundQec.steane_zero_codewords)
  ∧ (∃ f, ImprovedEncoding.verify_codewords ["0010111"] = Ok f ∧ (f == 0)%Q)
  ∧ (∃ f, ImprovedEncoding.verify_codewords
            ["0000000"; "0010111"; "0101011"; "0111100";
             "1001101"; "1011010"; "1100110"; "1110001"] = Ok f
          ∧ (f == 1 # 2)%Q).
Proof.
  split; [reflexivity|]. split; [reflexivity|]. split; [reflexivity|].
  split; [compute_done|]. split; [compute_done|].
  split; eexists; split; by vm_compute.
Qed.

(** ** Error scaling (C3, C9) *)

Import ErrorScaling.

Section Scaling.
Local Open Scope Q_scope.

Lemma Qltb_lt x y : Qltb x y = true ↔ x < y.
Proof.
  unfold Qltb. rewrite negb_true_iff, <- not_true_iff_false, Qle_bool_iff.
  split; [apply Qnot_le_lt | apply Qlt_not_le].
Qed.

Lemma Qltb_ge x y : Qltb x y = false ↔ y <= x.
Proof.
  unfold Qltb. rewrite negb_false_iff. apply Qle_bool_iff.
Qed.

(** How the exponent is read: below 1 as suppression, equal to 1 as no
    benefit, above 1 as amplification. *)
Lemma interpret_cases pw :
  (pw < 1 → interpret pw = Suppresses)
  ∧ (pw == 1 → interpret pw = NoBenefit)
  ∧ (1 < pw → interpret pw = Amplifies).
Proof.
  unfold interpret. repeat split; intros H.
  - apply Qltb_lt in H. by rewrite H.
  - assert (Qltb pw 1 = false) as ->.
    { apply Qltb_ge. rewrite H. apply Qle_refl. }
    apply Qeq_bool_iff in H. by rewrite H.
  - assert (Qltb pw 1 = false) as -> by (by apply Qltb_ge, Qlt_le_weak).
    destruct (Qeq_bool pw 1) eqn:E; [|done].
    apply Qeq_bool_iff in E. rewrite E in H. by apply Qlt_irrefl in H.
Qed.

(** A guarded division by a positive rate does not raise. *)
Lemma py_div_pos x y : 0 < y → py_div x y = Ok (x / y).
Proof.
  intros Hy. unfold py_div.
  destruct (Qeq_bool y 0) eqn:E; [|done].
  apply Qeq_bool_iff in E. rewrite E in Hy. by apply Qlt_irrefl in Hy.
Qed.

Lemma ratio_row_total pl : ratio_row pl = Ok (guarded_ratio pl).
Proof.
  unfold ratio_row, guarded_ratio.
  destruct (Qltb 0 pl.1) eqn:E; [|done].
  apply Qltb_lt in E. by rewrite py_div_pos.
Qed.

Lemma data_table_total pts : mapM ratio_row pts = Ok (guarded_ratio <$> pts).
Proof.
  induction pts as [|pl pts IH]; [done|].
  simpl. rewrite ratio_row_total. simpl. by rewrite IH.
Qed.

Section WithLog.
Variable math_log : Q → Q.
Variable math_exp : Q → option Q.

Lemma _exp_Some x y : math_exp x = Some y → _exp math_exp x = Ok y.
Proof. intros H. unfold _exp. by rewrite H. Qed.

Lemma _exp_None x : math_exp x = None → _exp math_exp x = Raise OverflowError.
Proof. intros H. unfold _exp. by rewrite H. Qed.

Lemma _log_pos x : 0 < x → _log math_log x = Ok (math_log x).
Proof. intros Hx%Qltb_lt. unfold _log. by rewrite Hx. Qed.

Lemma _log_nonpos x : x <= 0 → _log math_log x = Raise ValueError.
Proof. intros Hx%Qltb_ge. unfold _log. by rewrite Hx. Qed.

Lemma log_list_positive xs :
  Forall (fun x => 0 < x) xs → mapM (_log math_log) xs = Ok (math_log <$> xs).
Proof.
  induction 1 as [|x xs Hx _ IH]; [done|].
  simpl. rewrite _log_pos by done. simpl. by rewrite IH.
Qed.

Lemma log_list_Ok xs ys :
  mapM (_log math_log) xs = Ok ys →
  Forall (fun x => 0 < x) xs ∧ ys = math_log <$> xs.
Proof.
  revert ys. induction xs as [|x xs IH]; intros ys; simpl.
  - intros [= <-]. by split.
  - destruct (Qlt_le_dec 0 x) as [Hx|Hx].
    + rewrite _log_pos by done. simpl.
      destruct (mapM _ xs) as [ys'|] eqn:E'; simpl; [|done].
      intros [= <-]. destruct (IH _ eq_refl) as [Hpos ->].
      split; [|done]. by constructor.
    + by rewrite _log_nonpos.
Qed.

Lemma log_list_nonpositive xs :
  Exists (fun x => x <= 0) xs → mapM (_log math_log) xs = Raise ValueError.
Proof.
  induction 1 as [x xs Hx | x xs _ IH]; simpl.
  - by rewrite _log_nonpos.
  - destruct (Qlt_le_dec 0 x) as [Hx|Hx].
    + rewrite _log_pos by done. simpl. by rewrite IH.
    + by rewrite _log_nonpos.
Qed.

(** A rate that is not positive, physical or logical, stops the
    analysis at the logarithm. *)
Lemma plot_error_scaling_nonpositive ps ls :
  Exists (fun x => x <= 0) ps
  ∨ (Forall (fun x => 0 < x) ps ∧ Exists (fun x => x <= 0) ls) →
  plot_error_scaling math_log math_exp ps ls = Raise ValueError.
Proof.
  unfold plot_error_scaling. rewrite data_table_total. simpl.
  intros [Hp | [Hp Hl]].
  - by rewrite (log_list_nonpositive ps).
  - rewrite (log_list_positive ps) by done. simpl.
    by rewrite (log_list_nonpositive ls).
Qed.
End WithLog.

(** *** The regression recovers an exact line *)

Lemma py_sum_acc a xs : foldl Qplus a xs == a + py_sum xs.
Proof.
  unfold py_sum. revert a. induction xs as [|x xs IH]; intros a; simpl.
  - ring.
  - rewrite (IH (a + x)), (IH (0 + x)). ring.
Qed.

Lemma py_sum_cons x xs : py_sum (x :: xs) == x + py_sum xs.
Proof. unfold py_sum at 1. simpl. rewrite py_sum_acc. ring. Qed.

Lemma py_sum_fmap_ext {A} (f g : A → Q) l :
  (∀ x, x ∈ l → f x == g x) → py_sum (f <$> l) == py_sum (g <$> l).
Proof.
  induction l as [|x l IH]; intros H; [reflexivity|].
  rewrite !fmap_cons, !py_sum_cons, IH, (H x).
  - reflexivity.
  - by left.
  - intros y Hy. apply H. by right.
Qed.

Lemma py_sum_fmap_scale {A} c (f : A → Q) l :
  py_sum ((fun x => c * f x) <$> l) == c * py_sum (f <$> l).
Proof.
  induction l as [|x l IH]; [unfold py_sum; simpl; ring|].
  rewrite !fmap_cons, !py_sum_cons, IH. ring.
Qed.

Lemma py_sum_affine c b xs :
  py_sum ((fun x => c + b * x) <$> xs)
  == inject_Z (Z.of_nat (length xs)) * c + b * py_sum xs.
Proof.
  induction xs as [|x xs IH]; [unfold py_sum; simpl; ring|].
  rewrite fmap_cons, !py_sum_cons, IH. simpl length.
  rewrite Nat2Z.inj_succ, <- Z.add_1_r, inject_Z_plus. ring.
Qed.

Lemma py_sum_squares_zero {A} (f : A → Q) l :
  py_sum ((fun x => f x ^ 2) <$> l) == 0 → ∀ x, x ∈ l → f x == 0.
Proof.
  assert (Hnn : ∀ l', 0 <= py_sum ((fun x => f x ^ 2) <$> l')).
  { induction l' as [|y l' IH]; [by vm_compute|].
    rewrite fmap_cons, py_sum_cons.
    assert (0 <= f y ^ 2) by (simpl; nra). lra. }
  induction l as [|y l IH]; intros Hz x Hx; [by apply elem_of_nil in Hx|].
  rewrite fmap_cons, py_sum_cons in Hz.
  assert (H0 : 0 <= f y ^ 2) by (simpl; nra).
  specialize (Hnn l).
  apply elem_of_cons in Hx as [->|Hx].
  - assert (Hy : f y ^ 2 == 0) by lra. simpl in Hy. nra.
  - apply IH; [lra | done].
Qed.

Lemma zip_fmap_self {A B} (f : A → B) (l : list A) :
  zip l (f <$> l) = (fun x => (x, f x)) <$> l.
Proof. induction l as [|x l IH]; [done|]. simpl. f_equal. exact IH. Qed.

Lemma py_div_nonzero x y : ¬ y == 0 → py_div x y = Ok (x / y).
Proof.
  intros Hy. unfold py_div. destruct (Qeq_bool y 0) eqn:E; [|done].
  by apply Qeq_bool_iff in E.
Qed.

(** On log-log points that lie exactly on the line y = c + b x, with at
    least two distinct abscissas, the regression returns slope b and
    intercept c. *)
Lemma linear_regression_exact_line (c b : Q) (xs : list Q) (x1 x2 : Q) :
  x1 ∈ xs → x2 ∈ xs → ¬ x1 == x2 →
  ∃ pw log_a,
    linear_regression xs ((fun x => c + b * x) <$> xs) = Ok (pw, log_a)
    ∧ pw == b ∧ log_a == c.
Proof.
  intros H1 H2 Hne. unfold linear_regression.
  set (n := inject_Z (Z.of_nat (length xs))).
  assert (Hn : ¬ n == 0).
  { unfold n. destruct xs as [|x xs]; [by apply elem_of_nil in H1|].
    unfold Qeq. simpl. lia. }
  rewrite !py_div_nonzero by done. unfold mbind, result_bind. cbv beta iota.
  set (mx := py_sum xs / n).
  set (my := py_sum ((fun x => c + b * x) <$> xs) / n).
  assert (Hmy : my == c + b * mx).
  { unfold my, mx. rewrite py_sum_affine. fold n. by field. }
  set (D := py_sum ((fun x => (x - mx) ^ 2) <$> xs)).
  assert (HD : ¬ D == 0).
  { intros HD. apply Hne.
    pose proof (py_sum_squares_zero (fun x => x - mx) xs HD) as Hall.
    pose proof (Hall x1 H1) as Ha. pose proof (Hall x2 H2) as Hb.
    simpl in Ha, Hb. clear -Ha Hb. clearbody mx. lra. }
  assert (HN : py_sum ((fun xy : Q * Q => (xy.1 - mx) * (xy.2 - my))
                       <$> zip xs ((fun x => c + b * x) <$> xs)) == b * D).
  { rewrite zip_fmap_self, <- list_fmap_compose. unfold D.
    rewrite <- py_sum_fmap_scale. apply py_sum_fmap_ext.
    intros x _. unfold compose. simpl. rewrite Hmy. ring. }
  destruct (Qeq_bool D 0) eqn:E; [by apply Qeq_bool_iff in E|]. cbn [negb].
  rewrite py_div_nonzero by done.
  eexists _, _. split; [reflexivity|].
  assert (Hpw : py_sum ((fun xy : Q * Q => (xy.1 - mx) * (xy.2 - my))
                       <$> zip xs ((fun x => c + b * x) <$> xs)) / D == b).
  { rewrite HN. by field. }
  split; [exact Hpw|]. rewrite Hpw, Hmy. ring.
Qed.

(** The threshold listings divide by the physical rate only; with positive
    rates they do not raise. *)
Lemma threshold_rows_total (pts : list (Q * Q)) :
  Forall (fun pl => 0 < pl.1) pts →
  mapM threshold_row pts
  = Ok ((fun pl : Q * Q => (pl.1, pl.2, pl.2 / pl.1)) <$> pts).
Proof.
  induction 1 as [|pl pts Hp _ IH]; [done|].
  assert (Hrow : threshold_row pl = Ok (pl.1, pl.2, pl.2 / pl.1)).
  { unfold threshold_row. by rewrite py_div_pos. }
  simpl. rewrite Hrow. simpl. by rewrite IH.
Qed.

Lemma zip_positive (ps ls : list Q) :
  Forall (fun x => 0 < x) ps → Forall (fun pl : Q * Q => 0 < pl.1) (zip ps ls).
Proof.
  intros Hps. revert ls. induction Hps as [|p ps Hp _ IH]; intros [|l ls];
    simpl; constructor; [done|]. apply IH.
Qed.

Lemma Forall_filter_keep {A} (P Q : A → Prop) `{!∀ x, Decision (Q x)} (l : list A) :
  Forall P l → Forall P (filter Q l).
Proof.
  rewrite !Forall_forall. intros HP x Hx.
  apply list_elem_of_filter in Hx as [_ Hx]. by apply HP.
Qed.

(** Power-law data: when the rates are positive and the log-log points lie
    exactly on a line of slope b (L = a P^b), the analysis returns, unless
    the exponential overflows, with fitted exponent b, and reads it as
    suppression when b < 1 and as amplification when b > 1. *)
Lemma plot_error_scaling_exact_power_law
    (math_log : Q → Q) (math_exp : Q → option Q)
    (ps ls : list Q) (c b : Q) (p1 p2 : Q) :
  (∀ x, is_Some (math_exp x)) →
  Forall (fun x => 0 < x) ps → Forall (fun x => 0 < x) ls →
  math_log <$> ls = (fun x => c + b * x) <$> (math_log <$> ps) →
  p1 ∈ ps → p2 ∈ ps → ¬ math_log p1 == math_log p2 →
  ∃ r, plot_error_scaling math_log math_exp ps ls = Ok r
       ∧ power r == b
       ∧ (b < 1 → verdict r = Suppresses)
       ∧ (1 < b → verdict r = Amplifies).
Proof.
  intros Hexp Hps Hls Hline H1 H2 Hne.
  destruct (linear_regression_exact_line c b (math_log <$> ps)
              (math_log p1) (math_log p2)) as (pw & log_a & Hfit & Hpw & _);
    [by apply list_elem_of_fmap_2 | by apply list_elem_of_fmap_2 | done |].
  destruct (Hexp log_a) as [a Ha].
  unfold plot_error_scaling. rewrite data_table_total.
  rewrite (log_list_positive math_log ps), (log_list_positive math_log ls) by done.
  cbn [mbind result_bind].
  rewrite Hline, Hfit. cbn [mbind result_bind snd].
  rewrite (_exp_Some math_exp log_a a Ha). cbn [mbind result_bind].
  rewrite !threshold_rows_total by apply Forall_filter_keep, zip_positive, Hps.
  cbn [mbind result_bind mret result_ret].
  eexists. split; [reflexivity|]. simpl.
  split; [done|]. split; intros Hb; apply interpret_cases; by rewrite Hpw.
Qed.

(** C3 on the code: for the exact power law L = P^2 sampled at
    P = 1/2, 1/4, 1/8 the fitted exponent is 2 > 1 and the coefficient 1,
    every point has L < P and is listed under "QEC helps", and yet the
    interpretation printed is "Power > 1: QEC amplifies errors". *)
Theorem exponent_above_one_reported_as_amplification :
  ∃ r, plot_error_scaling log2_exact exp2_exact
         [1 # 2; 1 # 4; 1 # 8] [1 # 4; 1 # 16; 1 # 64] = Ok r
       ∧ n_points r = 3%nat
       ∧ power r == 2
       ∧ 1 < power r
       ∧ coefficient r == 1
       ∧ verdict r = Amplifies
       ∧ below_threshold r = 3%nat
       ∧ length (helps r) = 3%nat
       ∧ hurts r = [].
Proof. eexists. split; [by vm_compute|]. by vm_compute. Qed.

(** C9: a rate of 0 among the points.  The ratio table has a guard for
    it and reports the ratio 0 for a physical error rate of 0; the
    regression has none: no point is excluded, and with a physical (or a
    logical) error rate of 0 among the points the analysis raises
    ValueError at the logarithm. *)
Theorem zero_rate_aborts_analysis :
  mapM ratio_row (zip [0; 1 # 4; 1 # 8] [1 # 4; 1 # 16; 1 # 64])
  = Ok [(0, 1 # 4, 0); (1 # 4, 1 # 16, (1 # 16) / (1 # 4));
        (1 # 8, 1 # 64, (1 # 64) / (1 # 8))]
  ∧ plot_error_scaling log2_exact exp2_exact
      [0; 1 # 4; 1 # 8] [1 # 4; 1 # 16; 1 # 64]
    = Raise ValueError
  ∧ plot_error_scaling log2_exact exp2_exact
      [1 # 2; 1 # 4; 1 # 8] [1 # 4; 0; 1 # 64]
    = Raise ValueError
  ∧ ∃ r, plot_error_scaling log2_exact exp2_exact
           [1 # 4; 1 # 8] [1 # 16; 1 # 64] = Ok r
         ∧ n_points r = 2%nat ∧ power r == 2.
Proof.
  split; [by vm_compute|]. split; [by vm_compute|]. split; [by vm_compute|].
  eexists. split; [by vm_compute|]. split; by vm_compute.
Qed.

End Scaling.

(** * Further properties of the code *)

(** ** Decoder: keys outside the table, round trips, errors of weight two *)

Import DecoderCoverage.

Lemma table_keys_are_syndromes : Forall is_syndrome (STEANE_SYNDROME_TABLE_items.*1).
Proof. compute_done. Qed.

(** X1: a tuple that is not a 6-bit syndrome (wrong length, or an entry
    other than 0 and 1) is not a key of the table and decodes to
    ('Unknown', -1). *)
Theorem decode_outside_syndromes (s : syndrome) (Hs : ¬ is_syndrome s) :
  STEANE_SYNDROME_TABLE !! s = None ∧ decode_syndrome s = UNCORRECTABLE.
Proof.
  assert (Hnone : STEANE_SYNDROME_TABLE !! s = None).
  { destruct (STEANE_SYNDROME_TABLE !! s) as [r|] eqn:E; [|done].
    apply table_lookup_items in E. exfalso. apply Hs.
    apply (proj1 (Forall_forall _ _) table_keys_are_syndromes).
    apply list_elem_of_fmap. by exists (s, r). }
  split; [done|]. unfold decode_syndrome. by rewrite Hnone.
Qed.

Lemma decode_outside_syndromes_witness :
  ¬ is_syndrome [1; 0; 1] ∧ ¬ is_syndrome [0; 0; 0; 2; 0; 0]
  ∧ decode_syndrome [1; 0; 1] = UNCORRECTABLE
  ∧ decode_syndrome [0; 0; 0; 2; 0; 0] = UNCORRECTABLE.
Proof.
  assert (H1 : ¬ is_syndrome [1; 0; 1]) by (intros [Hl _]; discriminate Hl).
  assert (H2 : ¬ is_syndrome [0; 0; 0; 2; 0; 0]).
  { intros [_ Hb]. do 3 (apply Forall_cons in Hb as [_ Hb]).
    apply Forall_cons in Hb as [[Hb' | Hb'] _]; discriminate Hb'. }
  split; [exact H1|]. split; [exact H2|]. split.
  - exact (proj2 (decode_outside_syndromes _ H1)).
  - exact (proj2 (decode_outside_syndromes _ H2)).
Defined.

(** Every item of the literal other than the no-error one sits under the
    syndrome the rule gives to its error. *)
Lemma table_items_follow_rule :
  Forall (fun kv : syndrome * (pyval * pyval) =>
            kv.1 = [0; 0; 0; 0; 0; 0]
            ∨ Exists (fun e => kv.2 = single (pauli_name e.1) (Z.of_nat e.2)
                               ∧ kv.1 = syndrome_of e.1 e.2) single_errors)
         STEANE_SYNDROME_TABLE_items.
Proof. compute_done. Qed.

(** X2: the table is the graph of the syndrome rule on single-qubit errors,
    in both directions and for the three kinds: a tuple decodes to
    (kind, q) exactly when q is a qubit of the register and the tuple is the
    syndrome of that error. *)
Theorem decode_iff_syndrome_of (s : syndrome) (k : pauli) (q : nat) :
  decode_syndrome s = single (pauli_name k) (Z.of_nat q)
  ↔ (q < 7)%nat ∧ s = syndrome_of k q.
Proof.
  split.
  - intros Hd.
    destruct (decode_syndrome_cases s) as [Hin|[_ Hu]];
      [|rewrite Hd in Hu; by destruct k].
    rewrite Hd in Hin.
    pose proof (proj1 (Forall_forall _ _) table_items_follow_rule _ Hin)
      as [Hz|Hex]; simpl in *.
    + subst s. apply decode_syndrome_listed in Hin. by destruct k.
    + apply Exists_exists in Hex as ([k' q'] & Hin' & Heq & Hs). simpl in *.
      injection Heq as Hk Hq. apply pauli_name_inj in Hk as ->.
      apply Nat2Z.inj in Hq as ->. split; [|done].
      by apply (proj1 (Forall_forall _ _) single_errors_lt (k', q')).
  - intros [Hq ->].
    do 7 (destruct q as [|q]; [by destruct k|]). lia.
Qed.

(** X3: the whole pipeline on a single-qubit error of any kind: the
    correction issued for the decoded syndrome of the error is the error's
    own Pauli, on the error's own qubit, and nothing else. *)
Theorem correction_matches_error (k : pauli) (q : nat) (Hq : (q < 7)%nat) :
  apply_correction 7 (decode_syndrome (syndrome_of k q)).1
                     (decode_syndrome (syndrome_of k q)).2
  = Ok [pauli_gate k (Data q)].
Proof.
  assert (Hd : decode_syndrome (syndrome_of k q)
               = single (pauli_name k) (Z.of_nat q))
    by by apply decode_iff_syndrome_of.
  rewrite Hd. simpl. rewrite apply_correction_pauli by lia.
  by rewrite Nat2Z.id.
Qed.

Lemma correction_matches_error_witness :
  (4 < 7)%nat
  ∧ apply_correction 7 (decode_syndrome (syndrome_of PY 4)).1
                       (decode_syndrome (syndrome_of PY 4)).2
    = Ok [GY (Data 4)].
Proof.
  assert (H : (4 < 7)%nat) by lia.
  exact (conj H (correction_matches_error PY 4 H)).
Defined.

(** X4: two errors of the same kind on two different qubits are never
    reported as uncorrectable: their syndrome decodes to an error of that
    kind on a third qubit, and the three together are a logical operator of
    weight 3: no generator detects it and it is not a stabilizer. *)
Theorem double_error_miscorrected (k : pauli) (q1 q2 : nat)
    (H1 : (q1 < 7)%nat) (H2 : (q2 < 7)%nat) (Hne : q1 ≠ q2) :
  ∃ q3, (q3 < 7)%nat ∧ q3 ≠ q1 ∧ q3 ≠ q2
    ∧ decode_syndrome (op_syndrome (op_mul (error_op k q1) (error_op k q2)))
      = single (pauli_name k) (Z.of_nat q3)
    ∧ is_logical (op_mul (op_mul (error_op k q1) (error_op k q2)) (error_op k q3))
    ∧ weight (op_mul (op_mul (error_op k q1) (error_op k q2)) (error_op k q3))
      = 3%nat.
Proof.
  assert (H : Forall (fun q1 => Forall (fun q2 => Forall (fun k =>
    q1 = q2
    ∨ Exists (fun q3 => q3 ≠ q1 ∧ q3 ≠ q2
        ∧ decode_syndrome (op_syndrome (op_mul (error_op k q1) (error_op k q2)))
          = single (pauli_name k) (Z.of_nat q3)
        ∧ is_logical (op_mul (op_mul (error_op k q1) (error_op k q2)) (error_op k q3))
        ∧ weight (op_mul (op_mul (error_op k q1) (error_op k q2)) (error_op k q3))
          = 3%nat) (seq 0 7))
    [PX; PY; PZ]) (seq 0 7)) (seq 0 7)) by compute_done.
  assert (Hin : ∀ q, (q < 7)%nat → q ∈ seq 0 7)
    by (intros q Hq; apply elem_of_seq; lia).
  pose proof (proj1 (Forall_forall _ _) H q1 (Hin _ H1)) as Ha.
  pose proof (proj1 (Forall_forall _ _) Ha q2 (Hin _ H2)) as Hb.
  assert (Hk : k ∈ [PX; PY; PZ]) by (destruct k; set_solver).
  pose proof (proj1 (Forall_forall _ _) Hb k Hk) as [?|Hex]; [done|].
  apply Exists_exists in Hex as (q3 & Hq3 & Hc).
  exists q3. split; [apply elem_of_seq in Hq3; lia | exact Hc].
Qed.

Lemma double_error_miscorrected_witness :
  (0 < 7)%nat ∧ (1 < 7)%nat ∧ 0%nat ≠ 1%nat
  ∧ ∃ q3, decode_syndrome (op_syndrome (op_mul (error_op PX 0) (error_op PX 1)))
          = single "X" (Z.of_nat q3).
Proof.
  assert (H0 : (0 < 7)%nat) by lia. assert (H1 : (1 < 7)%nat) by lia.
  assert (Hne : 0%nat ≠ 1%nat) by lia.
  split; [exact H0|]. split; [exact H1|]. split; [exact Hne|].
  destruct (double_error_miscorrected PX 0 1 H0 H1 Hne) as (q3 & _ & _ & _ & Hd & _).
  exists q3. exact Hd.
Defined.

(** X5: the 6-bit syndromes reported as uncorrectable are exactly the 42
    syndromes of an X error on one qubit together with a Z error on a
    different qubit. *)
Theorem uncorrectable_iff_mixed_pair (s : syndrome) (Hs : is_syndrome s) :
  (decode_syndrome s = UNCORRECTABLE
   ↔ ∃ i j, (i < 7)%nat ∧ (j < 7)%nat ∧ i ≠ j
            ∧ s = op_syndrome (op_mul (error_op PX i) (error_op PZ j)))
  ∧ length mixed_pair_syndromes = 42%nat
  ∧ NoDup mixed_pair_syndromes.
Proof.
  split; [|split; [by vm_compute | compute_done]].
  assert (Hmem : ∀ t, t ∈ mixed_pair_syndromes
    ↔ ∃ i j, (i < 7)%nat ∧ (j < 7)%nat ∧ i ≠ j
             ∧ t = op_syndrome (op_mul (error_op PX i) (error_op PZ j))).
  { intros t. unfold mixed_pair_syndromes. rewrite list_elem_of_bind. split.
    - intros (i & Ht & Hi). apply list_elem_of_bind in Ht as (j & Ht & Hj).
      apply elem_of_seq in Hi, Hj. case_decide; [by apply elem_of_nil in Ht|].
      apply list_elem_of_singleton in Ht. exists i, j. repeat split; (lia || done).
    - intros (i & j & Hi & Hj & Hne & ->). exists i. split; [|apply elem_of_seq; lia].
      apply list_elem_of_bind. exists j. split; [|apply elem_of_seq; lia].
      case_decide; [done|]. by apply list_elem_of_singleton. }
  rewrite <- Hmem. revert s Hs. apply syndrome_ind. compute_done.
Qed.

Lemma uncorrectable_iff_mixed_pair_witness :
  is_syndrome [1; 1; 0; 0; 1; 1]
  ∧ ∃ i j, [1; 1; 0; 0; 1; 1]
           = op_syndrome (op_mul (error_op PX i) (error_op PZ j)).
Proof.
  assert (Hs : is_syndrome [1; 1; 0; 0; 1; 1]).
  { split; [reflexivity | repeat constructor; (by left) || (by right)]. }
  split; [exact Hs|].
  destruct (proj1 (proj1 (uncorrectable_iff_mixed_pair _ Hs)) eq_refl)
    as (i & j & _ & _ & _ & Heq).
  exists i, j. exact Heq.
Defined.

(** ** Kernels: what a builder issues *)

Import Kernel.

Section KernelFacts.
Local Open Scope nat_scope.

Lemma gates_of_app os1 os2 : gates_of (os1 ++ os2) = gates_of os1 ++ gates_of os2.
Proof. unfold gates_of. apply bind_app. Qed.

Lemma noise_of_app os1 os2 : noise_of (os1 ++ os2) = noise_of os1 ++ noise_of os2.
Proof. unfold noise_of. apply bind_app. Qed.

Lemma measured_app gs1 gs2 : measured (gs1 ++ gs2) = measured gs1 ++ measured gs2.
Proof. unfold measured. apply bind_app. Qed.

Lemma gates_of_OGate gs : gates_of (OGate <$> gs) = gs.
Proof. induction gs as [|g gs IH]; [done|]. cbn. by f_equal. Qed.

Lemma noise_of_OGate gs : noise_of (OGate <$> gs) = [].
Proof. induction gs as [|g gs IH]; [done|]. exact IH. Qed.

(** A loop whose body issues [f n] and allocates [k] ancillas when started
    with [n] allocated issues the bodies one after the other, each on its
    own ancillas. *)
Lemma for_each_rounds {A} (body : A → kernel unit) (f : nat → list op) (k : nat) :
  (∀ v n, body v n = (tt, k + n, f n)) →
  ∀ (l : list A) n,
    for_each l body n
    = (tt, k * length l + n,
       concat ((fun r => f (k * r + n)) <$> seq 0 (length l))).
Proof.
  intros Hbody l. induction l as [|v l IH]; intros n.
  - unfold for_each, mret, kernel_ret. cbn [length seq]. by rewrite Nat.mul_0_r.
  - cbn [for_each]. unfold mbind, kernel_bind. rewrite Hbody, IH.
    cbn [length seq]. rewrite fmap_cons. cbn [concat].
    f_equal; [f_equal; lia|].
    rewrite Nat.mul_0_r. f_equal.
    rewrite <- fmap_S_seq, <- list_fmap_compose. f_equal.
    apply list_fmap_ext. intros i r _. cbn. f_equal. lia.
Qed.

Lemma for_each_no_alloc {A} (body : A → kernel unit) (f : A → list op) :
  (∀ v n, body v n = (tt, n, f v)) →
  ∀ (l : list A) n, for_each l body n = (tt, n, l ≫= f).
Proof.
  intros Hbody l. induction l as [|v l IH]; intros n; [done|].
  cbn [for_each]. unfold mbind, kernel_bind. by rewrite Hbody, IH.
Qed.

Lemma emit_gates_run gs n : emit_gates gs n = (tt, n, OGate <$> gs).
Proof.
  unfold emit_gates. rewrite (for_each_no_alloc _ (fun g => [OGate g])) by done.
  by f_equal.
Qed.

Lemma measure_data_run n :
  for_each (seq 0 7) (fun i => measure (Data i)) n
  = (tt, n, OGate <$> (GMeasure ∘ Data <$> seq 0 7)).
Proof. reflexivity. Qed.

(** The ancillas of consecutive rounds, in allocation order. *)
Lemma concat_ancilla_rounds (rounds n : nat) :
  concat ((fun r => Anc <$> seq (6 * r + n) 6) <$> seq 0 rounds)
  = Anc <$> seq n (6 * rounds).
Proof.
  revert n. induction rounds as [|rounds IH]; intros n; [done|].
  replace (6 * S rounds) with (6 + 6 * rounds) by lia.
  rewrite seq_app, fmap_app, <- (IH (n + 6)).
  cbn [seq]. rewrite fmap_cons. cbn [concat]. f_equal.
  rewrite <- fmap_S_seq, <- list_fmap_compose. f_equal.
  apply list_fmap_ext. intros i r _. cbn [compose].
  replace (6 * S r + n) with (6 * r + (n + 6)) by lia. reflexivity.
Qed.

End KernelFacts.

Section RoundBuilders.
Local Open Scope nat_scope.
Import MultiRoundKernels ScalingKernels DecodingKernels SyndromeExtraction.

Lemma bind_run {A B} (m : kernel A) (k : A → kernel B) n a n1 o1 b n2 o2 :
  m n = (a, n1, o1) → k a n1 = (b, n2, o2) → (m ≫= k) n = (b, n2, o1 ++ o2).
Proof. intros Hm Hk. unfold mbind, kernel_bind. by rewrite Hm, Hk. Qed.

Lemma gates_of_concat ls : gates_of (concat ls) = concat (gates_of <$> ls).
Proof.
  induction ls as [|l ls IH]; [done|].
  cbn [concat]. rewrite gates_of_app, IH. done.
Qed.

Lemma noise_of_concat ls : noise_of (concat ls) = concat (noise_of <$> ls).
Proof.
  induction ls as [|l ls IH]; [done|].
  cbn [concat]. rewrite noise_of_app, IH. done.
Qed.

Lemma measured_concat ls : measured (concat ls) = concat (measured <$> ls).
Proof.
  induction ls as [|l ls IH]; [done|].
  cbn [concat]. rewrite measured_app, IH. done.
Qed.

(** *** One round of each builder, started with [n] ancillas allocated *)

(** The round of segment 2.3: the noise on the data qubits, issued only for
    a positive level, then the gates on six fresh ancillas. *)
Lemma single_qec_round_run (p : Q) n :
  single_qec_round_with_noise p n
  = (tt, 6 + n,
     (if Qltb 0 p then (fun i => ODepolarize p (Data i)) <$> seq 0 7 else [])
     ++ (OGate <$> (shift_gate n <$>
                      gates_of (ops_of (single_qec_round_with_noise 0%Q))))).
Proof.
  unfold single_qec_round_with_noise. destruct (Qltb 0 p); reflexivity.
Qed.

Lemma steane_qec_round_run (p : Q) n :
  (steane_qec_round p n).1 = (tt, 6 + n)
  ∧ gates_of (ops_from (steane_qec_round p) n)
    = shift_gate n <$> gates_of (ops_of (single_qec_round_with_noise 0%Q))
  ∧ noise_of (ops_from (steane_qec_round p) n)
    = ((fun i => ODepolarize p (Data i)) <$> seq 0 7)
      ++ ((fun i => ODepolarize p (Anc (i + n))) <$> seq 0 6).
Proof. by repeat split. Qed.

Lemma noisy_round_run (p : Q) n :
  (noisy_round p n).1 = (tt, 6 + n)
  ∧ gates_of (ops_from (noisy_round p) n)
    = (shift_gate n <$> SyndromeDecoding.measure_all_syndromes)
      ++ (GMeasure ∘ Anc <$> seq n 6)
  ∧ noise_of (ops_from (noisy_round p) n)
    = ((fun i => ODepolarize p (Data i)) <$> seq 0 7)
      ++ ((fun i => ODepolarize (p * 5)%Q (Anc (i + n))) <$> seq 0 6).
Proof. by repeat split. Qed.

(** *** Whole programs *)

Lemma pair_eta {A B} (x : A * B) a : x.1 = a → x = (a, x.2).
Proof. intros <-. by destruct x. Qed.

Lemma multi_round_qec_ops rounds (p : Q) :
  ops_of (multi_round_qec rounds p)
  = (OGate <$> MultiRoundQec.prepare_steane_logical_zero)
    ++ concat ((fun r => ops_from (single_qec_round_with_noise p) (6 * r + 0))
               <$> seq 0 rounds)
    ++ (OGate <$> (GMeasure ∘ Data <$> seq 0 7)).
Proof.
  unfold ops_of, ops_from, multi_round_qec.
  erewrite bind_run; [reflexivity | apply emit_gates_run |].
  erewrite bind_run; [reflexivity | | apply measure_data_run].
  rewrite (for_each_rounds _ (ops_from (single_qec_round_with_noise p)) 6).
  - by rewrite length_seq.
  - intros _ n. apply pair_eta. by rewrite single_qec_round_run.
Qed.

Lemma memory_experiment_ops rounds (p : Q) :
  ops_of (memory_experiment rounds p)
  = (OGate <$> MultiRoundQec.prepare_steane_logical_zero)
    ++ concat ((fun r => ops_from (steane_qec_round p) (6 * r + 0))
               <$> seq 0 rounds)
    ++ (OGate <$> (GMeasure ∘ Data <$> seq 0 7)).
Proof.
  unfold ops_of, ops_from, memory_experiment, prepare_steane_zero.
  erewrite bind_run; [reflexivity | apply emit_gates_run |].
  erewrite bind_run; [reflexivity | | apply measure_data_run].
  rewrite (for_each_rounds _ (ops_from (steane_qec_round p)) 6).
  - by rewrite length_seq.
  - intros _ n. apply pair_eta. apply steane_qec_round_run.
Qed.

Lemma multi_round_qec_noisy_ops rounds (p : Q) :
  ops_of (multi_round_qec_noisy rounds p)
  = (OGate <$> SyndromeDecoding.prepare_steane_logical_zero)
    ++ concat ((fun r => ops_from (noisy_round p) (6 * r + 0)) <$> seq 0 rounds)
    ++ (OGate <$> (GMeasure ∘ Data <$> seq 0 7)).
Proof.
  unfold ops_of, ops_from, multi_round_qec_noisy.
  erewrite bind_run; [reflexivity | apply emit_gates_run |].
  erewrite bind_run; [reflexivity | | apply measure_data_run].
  rewrite (for_each_rounds _ (ops_from (noisy_round p)) 6).
  - by rewrite length_seq.
  - intros _ n. apply pair_eta. apply noisy_round_run.
Qed.

Lemma idle_round_run (p : Q) n :
  (for_each (seq 0 7) (fun i => depolarize p (Data i));;
   single_qec_round_with_noise 0%Q) n
  = (tt, 6 + n,
     ((fun i => ODepolarize p (Data i)) <$> seq 0 7)
     ++ (OGate <$> (shift_gate n <$>
                      gates_of (ops_of (single_qec_round_with_noise 0%Q))))).
Proof. reflexivity. Qed.

Lemma memory_experiment_with_idle_noise_ops steps (p : Q) :
  ops_of (memory_experiment_with_idle_noise steps p)
  = (OGate <$> MultiRoundQec.prepare_steane_logical_zero)
    ++ concat ((fun r =>
         ((fun i => ODepolarize p (Data i)) <$> seq 0 7)
         ++ (OGate <$> (shift_gate (6 * r + 0) <$>
                          gates_of (ops_of (single_qec_round_with_noise 0%Q)))))
               <$> seq 0 steps)
    ++ (OGate <$> (GMeasure ∘ Data <$> seq 0 7)).
Proof.
  unfold ops_of, ops_from, memory_experiment_with_idle_noise.
  erewrite bind_run; [reflexivity | apply emit_gates_run |].
  erewrite bind_run; [reflexivity | | apply measure_data_run].
  rewrite (for_each_rounds _ (fun n =>
     ((fun i => ODepolarize p (Data i)) <$> seq 0 7)
     ++ (OGate <$> (shift_gate n <$>
                      gates_of (ops_of (single_qec_round_with_noise 0%Q))))) 6).
  - by rewrite length_seq.
  - intros _ n. apply idle_round_run.
Qed.

End RoundBuilders.

Section RoundProperties.
Local Open Scope nat_scope.
Import MultiRoundKernels ScalingKernels DecodingKernels SyndromeExtraction
       EncodingKernels.

(** *** Renaming ancillas does not change the generators measured *)

Lemma shift_gate_inj n : Inj (=) (=) (shift_gate n).
Proof.
  assert (Hq : ∀ q q', shift_qref n q = shift_qref n q' → q = q').
  { intros [] []; simpl; intros [=]; f_equal; lia. }
  intros [] []; simpl; intros [=]; f_equal; by apply Hq.
Qed.

Lemma ancilla_type_shift n c a :
  ancilla_type (shift_gate n <$> c) (a + n) = ancilla_type c a.
Proof.
  unfold ancilla_type.
  assert (bool_decide (GH (Anc (a + n)) ∈ shift_gate n <$> c)
          = bool_decide (GH (Anc a) ∈ c)) as ->; [|done].
  apply bool_decide_ext.
  change (GH (Anc (a + n))) with (shift_gate n (GH (Anc a))).
  apply list_elem_of_fmap_inj, shift_gate_inj.
Qed.

Lemma ancilla_support_shift n c a :
  ancilla_support (shift_gate n <$> c) (a + n) = ancilla_support c a.
Proof.
  unfold ancilla_support. induction c as [|g c IH]; [done|].
  rewrite fmap_cons. cbn [mbind list_bind]. rewrite IH. f_equal.
  assert (Hd : ∀ a', bool_decide (a' + n = a + n) = bool_decide (a' = a))
    by (intros; apply bool_decide_ext; lia).
  destruct g as [| | | |[] []|]; simpl; try done; by rewrite Hd.
Qed.

Lemma generators_at_shift n c :
  generators_at n (shift_gate n <$> c) = generators_at 0 c.
Proof.
  unfold generators_at. apply list_fmap_ext. intros _ a _.
  by rewrite ancilla_type_shift, ancilla_support_shift, Nat.add_0_r.
Qed.

(** X6: the four extraction circuits - the per-stabilizer kernels of
    segment 2.2 in the order [full_syndrome_extraction] calls them, the
    rounds of segments 2.3 and 3.2 at any noise level, and
    [measure_all_syndromes] of segment 5.1 - measure the same six
    generators, of the same types and supports, in the same order, whatever
    ancillas they are given. *)
Theorem extraction_circuits_agree (n : nat) (p : Q) :
  generators_at n (gates_of (ops_from extract_and_read n)) = generators
  ∧ generators_at n (gates_of (ops_from (single_qec_round_with_noise p) n))
    = generators
  ∧ generators_at n (gates_of (ops_from (steane_qec_round p) n)) = generators
  ∧ generators_at n
      (gates_of (ops_from DecodingKernels.measure_all_syndromes n))
    = generators.
Proof.
  assert (H23 : gates_of (ops_from (single_qec_round_with_noise p) n)
                = shift_gate n <$>
                    gates_of (ops_of (single_qec_round_with_noise 0%Q))).
  { unfold ops_from. rewrite single_qec_round_run. cbn [snd].
    rewrite gates_of_app, gates_of_OGate.
    by destruct (Qltb 0 p). }
  split; [|split; [|split]].
  - change (gates_of (ops_from extract_and_read n))
      with (shift_gate n <$> gates_of (ops_of extract_and_read)).
    rewrite generators_at_shift. by vm_compute.
  - rewrite H23, generators_at_shift. by vm_compute.
  - rewrite (proj1 (proj2 (steane_qec_round_run p n))), generators_at_shift.
    by vm_compute.
  - change (gates_of (ops_from DecodingKernels.measure_all_syndromes n))
      with (gates_of (OGate <$> (shift_gate n <$>
                                   SyndromeDecoding.measure_all_syndromes))).
    rewrite gates_of_OGate, generators_at_shift. by vm_compute.
Qed.

(** *** The columns of a shot *)

Lemma round_record_23 (p : Q) n :
  measured (gates_of (ops_from (single_qec_round_with_noise p) n))
  = Anc <$> seq n 6.
Proof.
  unfold ops_from. rewrite single_qec_round_run. cbn [snd].
  rewrite gates_of_app, gates_of_OGate. by destruct (Qltb 0 p).
Qed.

Lemma record_of_rounds (prep : list gate) (f : nat → list op) rounds :
  measured prep = [] →
  (∀ n, measured (gates_of (f n)) = Anc <$> seq n 6) →
  measured (gates_of ((OGate <$> prep)
                      ++ concat ((fun r => f (6 * r + 0)) <$> seq 0 rounds)
                      ++ (OGate <$> (GMeasure ∘ Data <$> seq 0 7))))
  = (Anc <$> seq 0 (6 * rounds)) ++ (Data <$> seq 0 7).
Proof.
  intros Hprep Hf.
  rewrite !gates_of_app, !gates_of_OGate, !measured_app, Hprep.
  rewrite gates_of_concat, measured_concat, <- !list_fmap_compose.
  cbn [app]. f_equal.
  rewrite <- concat_ancilla_rounds. f_equal.
  apply list_fmap_ext. intros _ r _. cbn [compose]. apply Hf.
Qed.

(** X7: the column layout the analyses rely on.  For every number of
    rounds and every noise level, a shot of [multi_round_qec] (2.3),
    [memory_experiment_with_idle_noise] (2.3), [memory_experiment] (3.2)
    and [multi_round_qec_noisy] (5.1) consists of the 6 * rounds ancilla
    measurements, in allocation order, followed by the data qubits 0..6:
    the final data bits start at column rounds * 6, there are
    6 * rounds + 7 columns, and no qubit is measured twice. *)
Theorem shot_columns (rounds : nat) (p : Q) :
  let columns := (Anc <$> seq 0 (6 * rounds)) ++ (Data <$> seq 0 7) in
  measured (gates_of (ops_of (multi_round_qec rounds p))) = columns
  ∧ measured (gates_of (ops_of (memory_experiment_with_idle_noise rounds p)))
    = columns
  ∧ measured (gates_of (ops_of (memory_experiment rounds p))) = columns
  ∧ measured (gates_of (ops_of (multi_round_qec_noisy rounds p))) = columns
  ∧ length columns = 6 * rounds + 7
  ∧ drop (rounds * 6) columns = Data <$> seq 0 7
  ∧ NoDup columns.
Proof.
  intros columns. split; [|split; [|split; [|split; [|split; [|split]]]]].
  - rewrite multi_round_qec_ops. apply record_of_rounds; [done|].
    apply round_record_23.
  - rewrite memory_experiment_with_idle_noise_ops.
    apply (record_of_rounds _ (fun n =>
      ((fun i => ODepolarize p (Data i)) <$> seq 0 7)
      ++ (OGate <$> (shift_gate n <$>
                       gates_of (ops_of (single_qec_round_with_noise 0%Q))))));
      [done|].
    intros n. by rewrite gates_of_app, gates_of_OGate.
  - rewrite memory_experiment_ops. apply record_of_rounds; [done|].
    intros n. by rewrite (proj1 (proj2 (steane_qec_round_run p n))).
  - rewrite multi_round_qec_noisy_ops. apply record_of_rounds; [done|].
    intros n. rewrite (proj1 (proj2 (noisy_round_run p n))).
    rewrite measured_app. by rewrite list_fmap_compose.
  - unfold columns. rewrite length_app, !length_fmap, !length_seq. lia.
  - unfold columns. rewrite drop_app_length'; [done|].
    rewrite length_fmap, length_seq. lia.
  - assert (HA : Inj (=) (=) Anc) by (by intros ?? [=]).
    assert (HD : Inj (=) (=) Data) by (by intros ?? [=]).
    unfold columns. apply NoDup_app. split; [|split].
    + apply (NoDup_fmap_2 _), NoDup_seq.
    + intros q [i [-> _]]%list_elem_of_fmap [j [[=] _]]%list_elem_of_fmap.
    + apply (NoDup_fmap_2 _), NoDup_seq.
Qed.

End RoundProperties.

Section NoiseProperties.
Local Open Scope nat_scope.
Import MultiRoundKernels ScalingKernels DecodingKernels SyndromeExtraction
       EncodingKernels.

(** The gates of one round on ancillas [0 .. 5], measurements interleaved
    as segments 2.3 and 3.2 issue them. *)
Lemma round_gates_23 (p : Q) n :
  gates_of (ops_from (single_qec_round_with_noise p) n)
  = shift_gate n <$> gates_of (ops_of (single_qec_round_with_noise 0%Q)).
Proof.
  unfold ops_from. rewrite single_qec_round_run. cbn [snd].
  rewrite gates_of_app, gates_of_OGate. by destruct (Qltb 0 p).
Qed.

Lemma round_noise_23 (p : Q) n :
  noise_of (ops_from (single_qec_round_with_noise p) n)
  = if Qltb 0 p then (fun i => ODepolarize p (Data i)) <$> seq 0 7 else [].
Proof.
  unfold ops_from. rewrite single_qec_round_run. cbn [snd].
  rewrite noise_of_app, noise_of_OGate, app_nil_r. by destruct (Qltb 0 p).
Qed.

Lemma concat_const {A} (l : list A) rounds (f : nat → nat) :
  concat ((fun _ => l) ∘ f <$> seq 0 rounds) = concat (replicate rounds l).
Proof.
  generalize 0. induction rounds as [|rounds IH]; intros s; [done|].
  cbn. f_equal. apply IH.
Qed.

(** X8: the noise guard of segment 2.3.  [multi_round_qec] issues noise
    channels only for a positive noise level: then 7 per round, one on each
    data qubit with that probability, and none otherwise; its gates and
    measurements do not depend on the noise level. *)
Theorem multi_round_qec_noise (rounds : nat) (p : Q) :
  gates_of (ops_of (multi_round_qec rounds p))
  = gates_of (ops_of (multi_round_qec rounds 0%Q))
  ∧ noise_of (ops_of (multi_round_qec rounds p))
    = (if Qltb 0 p
       then concat (replicate rounds
                      ((fun i => ODepolarize p (Data i)) <$> seq 0 7))
       else [])
  ∧ length (noise_of (ops_of (multi_round_qec rounds p)))
    = if Qltb 0 p then 7 * rounds else 0.
Proof.
  assert (Hnoise : noise_of (ops_of (multi_round_qec rounds p))
    = (if Qltb 0 p
       then concat (replicate rounds
                      ((fun i => ODepolarize p (Data i)) <$> seq 0 7))
       else [])).
  { rewrite multi_round_qec_ops, !noise_of_app, !noise_of_OGate, app_nil_r.
    cbn [app]. rewrite noise_of_concat, <- list_fmap_compose.
    erewrite list_fmap_ext; [|intros _ r _; cbn [compose]; apply round_noise_23].
    destruct (Qltb 0 p).
    - apply (concat_const _ rounds (fun r => r)).
    - clear. generalize 0. induction rounds as [|rounds IH]; intros s; [done|].
      cbn. apply IH. }
  split; [|split; [exact Hnoise|]].
  - rewrite !multi_round_qec_ops, !gates_of_app, !gates_of_concat.
    rewrite <- !list_fmap_compose. do 3 f_equal.
    apply list_fmap_ext. intros _ r _. cbn [compose].
    by rewrite !round_gates_23.
  - rewrite Hnoise. destruct (Qltb 0 p); [|done].
    clear. induction rounds as [|rounds IH]; [done|].
    cbn [replicate concat]. rewrite length_app, IH, length_fmap, length_seq. lia.
Qed.

(** X9: the multi-round builders of segments 2.3 and 3.2 issue the same
    gates and measurements, at any noise levels; for a positive level
    [memory_experiment_with_idle_noise] is the same program as
    [multi_round_qec]; and [memory_experiment] and [multi_round_qec_noisy]
    issue 13 channels per round at every level, zero included. *)
Theorem round_builders_agree (rounds : nat) (p p' : Q) :
  gates_of (ops_of (memory_experiment rounds p))
  = gates_of (ops_of (multi_round_qec rounds p'))
  ∧ gates_of (ops_of (memory_experiment_with_idle_noise rounds p))
    = gates_of (ops_of (multi_round_qec rounds p'))
  ∧ (Qltb 0 p = true →
     ops_of (memory_experiment_with_idle_noise rounds p)
     = ops_of (multi_round_qec rounds p))
  ∧ length (noise_of (ops_of (memory_experiment rounds p))) = 13 * rounds
  ∧ length (noise_of (ops_of (multi_round_qec_noisy rounds p))) = 13 * rounds.
Proof.
  assert (Hlen : ∀ (f : nat → list op),
    (∀ n, length (noise_of (f n)) = 13) →
    length (noise_of (concat ((fun r => f (6 * r + 0)) <$> seq 0 rounds)))
    = 13 * rounds).
  { intros f Hf. rewrite noise_of_concat, <- list_fmap_compose.
    enough (H : ∀ s, length (concat (noise_of ∘ (fun r => f (6 * r + 0))
                                       <$> seq s rounds)) = 13 * rounds)
      by apply H.
    induction rounds as [|r IH]; intros s; [done|].
    cbn [seq]. rewrite fmap_cons. cbn [concat compose].
    rewrite length_app, IH, Hf. lia. }
  split; [|split; [|split; [|split]]].
  - rewrite memory_experiment_ops, multi_round_qec_ops, !gates_of_app,
      !gates_of_concat, <- !list_fmap_compose. do 3 f_equal.
    apply list_fmap_ext. intros _ r _. cbn [compose].
    by rewrite round_gates_23, (proj1 (proj2 (steane_qec_round_run p _))).
  - rewrite memory_experiment_with_idle_noise_ops, multi_round_qec_ops,
      !gates_of_app, !gates_of_concat, <- !list_fmap_compose. do 3 f_equal.
    apply list_fmap_ext. intros _ r _. cbn [compose].
    by rewrite round_gates_23, gates_of_app, gates_of_OGate.
  - intros Hp.
    rewrite memory_experiment_with_idle_noise_ops, multi_round_qec_ops.
    do 3 f_equal. apply list_fmap_ext. intros _ r _.
    unfold ops_from. rewrite single_qec_round_run. cbn [snd]. by rewrite Hp.
  - rewrite memory_experiment_ops, !noise_of_app, !noise_of_OGate, app_nil_r.
    cbn [app]. apply Hlen. intros n.
    by rewrite (proj2 (proj2 (steane_qec_round_run p n))).
  - rewrite multi_round_qec_noisy_ops, !noise_of_app, !noise_of_OGate, app_nil_r.
    cbn [app]. apply Hlen. intros n.
    by rewrite (proj2 (proj2 (noisy_round_run p n))).
Qed.

Lemma round_builders_agree_witness :
  Qltb 0 (1 # 100) = true
  ∧ ops_of (memory_experiment_with_idle_noise 2 (1 # 100))
    = ops_of (multi_round_qec 2 (1 # 100)).
Proof.
  assert (H : Qltb 0 (1 # 100) = true) by reflexivity.
  split; [exact H|].
  exact (proj1 (proj2 (proj2 (round_builders_agree 2 (1 # 100) 0))) H).
Defined.

(** X10: the noisy encoders of segment 4.1 are the optimized encoder with
    noise attached, for every pair of probabilities: each Hadamard is
    followed by a channel on its qubit, each CNOT by a two-qubit channel of
    twice the gate probability on its two qubits, each measurement preceded
    by a channel on the measured qubit; the circuit of
    [evaluate_noise_resilience] is [noisy_optimized_encoding] with 5 p as
    measurement noise, and [parallel_optimized_logical_zero] is the
    optimized encoder with its measurements. *)
Theorem noisy_encoders_decorate_optimized (p_gate p_measure : Q) :
  ops_of (noisy_optimized_encoding p_gate p_measure)
  = ImprovedEncoding.optimized_steane_encoding_with_measure
    ≫= with_noise p_gate p_measure
  ∧ gates_of (ops_of (noisy_optimized_encoding p_gate p_measure))
    = ImprovedEncoding.optimized_steane_encoding_with_measure
  ∧ ops_of (evaluate_noise_resilience_circuit p_gate)
    = ops_of (noisy_optimized_encoding p_gate (p_gate * 5)%Q)
  ∧ ops_of parallel_optimized_logical_zero
    = OGate <$> ImprovedEncoding.optimized_steane_encoding_with_measure.
Proof. by repeat split. Qed.

(** X11: error injection in [syndrome_extraction_with_error].  A negative
    qubit, or an error type other than "X" and "Z" (a "Y", say, on any
    qubit), injects nothing: the circuit is [full_syndrome_extraction].
    For a qubit in [0,7) and type "X" or "Z" exactly that one Pauli gate is
    issued, between the encoder and the first stabilizer measurement. *)
Theorem injection_edge_cases (error_qubit : Z) (error_type : string) :
  ((error_qubit < 0)%Z ∨ (error_type ≠ "X" ∧ error_type ≠ "Z") →
   syndrome_extraction_with_error error_qubit error_type
   = Ok (ops_of full_syndrome_extraction))
  ∧ ((0 ≤ error_qubit < 7)%Z →
     syndrome_extraction_with_error error_qubit "X"
     = Ok ((OGate <$> MultiRoundQec.prepare_steane_logical_zero)
           ++ [OGate (GX (Data (Z.to_nat error_qubit)))]
           ++ ops_of extract_and_read)
     ∧ syndrome_extraction_with_error error_qubit "Z"
       = Ok ((OGate <$> MultiRoundQec.prepare_steane_logical_zero)
             ++ [OGate (GZ (Data (Z.to_nat error_qubit)))]
             ++ ops_of extract_and_read)).
Proof.
  split.
  - intros H. unfold syndrome_extraction_with_error.
    assert (inject_error error_qubit error_type = Ok []) as ->; [|done].
    unfold inject_error. destruct H as [H|[HX HZ]].
    + assert ((0 <=? error_qubit)%Z = false) as -> by lia. done.
    + destruct (0 <=? error_qubit)%Z; [|done].
      by repeat (case_decide; [done|]).
  - intros Hq. unfold syndrome_extraction_with_error, inject_error, py_index.
    assert ((0 <=? error_qubit)%Z = true) as -> by lia.
    assert ((error_qubit <? 0)%Z = false) as -> by lia.
    assert ((0 <=? error_qubit)%Z && (error_qubit <? Z.of_nat 7)%Z = true) as ->
      by (change (Z.of_nat 7) with 7%Z; apply andb_true_intro; lia).
    by split.
Qed.

Lemma injection_edge_cases_witness :
  syndrome_extraction_with_error (-1) "X" = Ok (ops_of full_syndrome_extraction)
  ∧ syndrome_extraction_with_error 3 "Y" = Ok (ops_of full_syndrome_extraction)
  ∧ syndrome_extraction_with_error 3 "X"
    = Ok ((OGate <$> MultiRoundQec.prepare_steane_logical_zero)
          ++ [OGate (GX (Data 3))] ++ ops_of extract_and_read).
Proof.
  split; [|split].
  - apply (proj1 (injection_edge_cases (-1) "X")). left. lia.
  - apply (proj1 (injection_edge_cases 3 "Y")). right. by split.
  - apply (proj1 (proj2 (injection_edge_cases 3 "X") ltac:(lia))).
Defined.

End NoiseProperties.

(** ** Noiseless statistics of the circuits *)

Section NoiselessStatistics.
Import Simulator Samples SyndromeExtraction.

(** The exact execution agrees with the enumeration of branches: the
    shots of an encoder followed by the measurement of its data qubits are
    its readouts. *)
Lemma execution_matches_branches :
  Forall (fun encoder =>
            ∃ rs, readouts encoder = Some rs
                  ∧ bitstring <$> possible_shots
                                    (encoder ++ (GMeasure ∘ Data <$> seq 0 7))
                    ≡ₚ rs)
         [SyndromeDecoding.prepare_steane_logical_zero;
          MultiRoundQec.prepare_steane_logical_zero;
          ImprovedEncoding.optimized_steane_encoding].
Proof.
  repeat apply Forall_cons_2; [| | |apply Forall_nil_2];
    (eexists; split; [by vm_compute|];
     refine (bool_decide_unpack _ _); by vm_compute).
Qed.

Lemma probabilities_by_enumeration (c : list gate)
    (test : syndrome → list bool → bool) (expected : syndrome → Q) :
  (let w := shot_weights c in
   forallb (fun s => Qeq_bool (weight_of w (test s)) (expected s))
           all_syndromes) = true →
  ∀ s, is_syndrome s → probability c (test s) == expected s.
Proof.
  cbv zeta. intros Hall s Hs%is_syndrome_enum.
  apply Qeq_bool_eq. unfold probability.
  rewrite forallb_forall in Hall. apply Hall.
  by apply list_elem_of_In.
Qed.

Lemma statistics_by_evaluation (c : list gate) (P : list bool → bool)
    (tests : list ((list bool → bool) * Q)) :
  (let w := shot_weights c in
   forallb P (map_to_list w).*1
   && forallb (fun tq => Qeq_bool (weight_of w tq.1) tq.2) tests) = true →
  Forall (fun shot => P shot = true) (possible_shots c)
  ∧ Forall (fun tq => probability c tq.1 == tq.2) tests.
Proof.
  cbv zeta. intros [HP Ht]%andb_prop. split.
  - apply Forall_forall. intros shot Hshot%list_elem_of_In.
    rewrite forallb_forall in HP. by apply HP.
  - apply Forall_forall. intros tq Htq%list_elem_of_In.
    rewrite forallb_forall in Ht. apply Qeq_bool_eq. by apply Ht.
Qed.

(** X12: an X or Z error injected on a data qubit before the extraction
    shows in the measured syndrome only on S2 and S5: these two bits are
    the ones of the table's syndrome for that error, and the four others
    (S1, S3, S4, S6) are uniformly random, so every 6-bit syndrome that
    agrees with the table's on S2 and S5 has probability 1/16 and no other
    occurs. *)
Theorem injected_error_syndrome_distribution
    (k : pauli) (q : nat) (s : syndrome)
    (Hk : k ≠ PY) (Hq : (q < 7)%nat) (Hs : is_syndrome s) :
  ∃ ops,
    syndrome_extraction_with_error (Z.of_nat q) (pauli_name k) = Ok ops
    ∧ measured_last (gates_of ops) = true
    ∧ probability (gates_of ops)
        (fun shot => bool_decide (as_ints (take 6 shot) = s))
      == if bool_decide (s !! 1%nat = syndrome_of k q !! 1%nat
                         ∧ s !! 4%nat = syndrome_of k q !! 4%nat)
         then 1 # 16 else 0.
Proof.
  assert (Hcases : q ∈ seq 0 7) by (apply elem_of_seq; lia).
  destruct k; [|done|];
    repeat (apply elem_of_cons in Hcases as [-> | Hcases]);
    try (by apply elem_of_nil in Hcases);
    (eexists; split; [by vm_compute|]; split; [by vm_compute|];
     revert s Hs;
     apply (probabilities_by_enumeration _
              (fun s shot => bool_decide (as_ints (take 6 shot) = s)));
     by vm_compute).
Qed.

Lemma injected_error_syndrome_distribution_witness :
  ∃ ops, syndrome_extraction_with_error 2 "X" = Ok ops
    ∧ probability (gates_of ops)
        (fun shot => bool_decide (as_ints (take 6 shot) = [1; 0; 1; 1; 0; 1]))
      == 1 # 16.
Proof.
  assert (Hs : is_syndrome [1; 0; 1; 1; 0; 1]).
  { split; [reflexivity | repeat constructor; (by left) || (by right)]. }
  assert (Hk : PX ≠ PY) by discriminate.
  assert (Hq : (2 < 7)%nat) by lia.
  destruct (injected_error_syndrome_distribution PX 2 _ Hk Hq Hs)
    as (ops & Hops & _ & Hp).
  exists ops. split; [exact Hops | exact Hp].
Defined.

(** X13: decoding the measured syndrome identifies an injected X or Z
    error in one shot out of sixteen.  The circuit holds no noise channel;
    the decoder of segment 5.1 applied to the first six columns of a shot
    returns the injected (type, qubit) with probability 1/16. *)
Theorem injected_error_decoded_one_in_sixteen
    (k : pauli) (q : nat) (Hk : k ≠ PY) (Hq : (q < 7)%nat) :
  ∃ ops,
    syndrome_extraction_with_error (Z.of_nat q) (pauli_name k) = Ok ops
    ∧ noise_of ops = []
    ∧ probability (gates_of ops)
        (fun shot => bool_decide (decode_syndrome (as_ints (take 6 shot))
                                  = single (pauli_name k) (Z.of_nat q)))
      == 1 # 16.
Proof.
  assert (Hcases : q ∈ seq 0 7) by (apply elem_of_seq; lia).
  destruct k; [|done|];
    repeat (apply elem_of_cons in Hcases as [-> | Hcases]);
    try (by apply elem_of_nil in Hcases);
    (eexists; split; [by vm_compute|]; split; by vm_compute).
Qed.

Lemma injected_error_decoded_one_in_sixteen_witness :
  ∃ ops, syndrome_extraction_with_error 0 "Z" = Ok ops
    ∧ probability (gates_of ops)
        (fun shot => bool_decide (decode_syndrome (as_ints (take 6 shot))
                                  = single "Z" 0))
      == 1 # 16.
Proof.
  assert (Hk : PZ ≠ PY) by discriminate.
  assert (Hq : (0 < 7)%nat) by lia.
  destruct (injected_error_decoded_one_in_sixteen PZ 0 Hk Hq)
    as (ops & Hops & _ & Hp).
  exists ops. split; [exact Hops | exact Hp].
Defined.

(** X14: the two demo cycles.  Measuring the six ancillas at the end
    instead of one by one changes nothing: each demo has the shot
    distribution of the extraction of segment 2.2 with the same error
    injected.  The syndrome the decoder test expects for the X error on
    qubit 2, (1,0,1,1,0,1), is seen in 1/16 of the shots and is decoded as
    a Y on qubit 2; the one it expects for the Z error on qubit 3,
    (1,0,0,0,0,0), is seen in 1/16 of the shots and is decoded as that
    Z error. *)
Theorem demo_cycles_statistics :
  let demo_x :=
    gates_of (ops_of DecodingKernels.qec_cycle_with_correction_single_x_error) in
  let demo_z :=
    gates_of (ops_of DecodingKernels.qec_cycle_with_correction_single_z_error) in
  measured_last demo_x = true ∧ measured_last demo_z = true
  ∧ (∃ ops, syndrome_extraction_with_error 2 "X" = Ok ops
            ∧ shot_weights demo_x = shot_weights (gates_of ops))
  ∧ (∃ ops, syndrome_extraction_with_error 3 "Z" = Ok ops
            ∧ shot_weights demo_z = shot_weights (gates_of ops))
  ∧ probability demo_x
      (fun shot => bool_decide (as_ints (take 6 shot) = [1; 0; 1; 1; 0; 1]))
    == 1 # 16
  ∧ decode_syndrome [1; 0; 1; 1; 0; 1] = single "Y" 2
  ∧ probability demo_z
      (fun shot => bool_decide (as_ints (take 6 shot) = [1; 0; 0; 0; 0; 0]))
    == 1 # 16
  ∧ decode_syndrome [1; 0; 0; 0; 0; 0] = single "Z" 3.
Proof.
  cbv zeta.
  split; [by vm_compute|]. split; [by vm_compute|].
  split; [eexists; split; [by vm_compute|];
          refine (bool_decide_unpack _ _); by vm_compute|].
  split; [eexists; split; [by vm_compute|];
          refine (bool_decide_unpack _ _); by vm_compute|].
  split; [by vm_compute|]. split; [by vm_compute|].
  split; by vm_compute.
Qed.

(** C2: the syndrome (1,0,1,1,0,1), named for an X error on qubit 2 in
    the demo cycle and expected for it by the decoder test, is decoded as
    a Y error on qubit 2, not as an X error; the table lists the X error
    on qubit 2 under (0,0,0,1,0,1).  The demo cycle with that X error
    shows (1,0,1,1,0,1) in 1/16 of its shots, and its syndrome is decoded
    as the X error on qubit 2 in 1/16 of its shots.  The syndrome
    (1,0,0,0,0,0) is decoded as a Z error on qubit 3 and the demo cycle
    with that error shows it in 1/16 of its shots; the all-zero syndrome
    is decoded as no error. *)
Theorem expected_x2_syndrome_decoded_as_y2 :
  let demo_x :=
    gates_of (ops_of DecodingKernels.qec_cycle_with_correction_single_x_error) in
  let demo_z :=
    gates_of (ops_of DecodingKernels.qec_cycle_with_correction_single_z_error) in
  let syndrome_is (s : syndrome) (shot : list bool) :=
    bool_decide (as_ints (take 6 shot) = s) in
  decode_syndrome [1; 0; 1; 1; 0; 1] = single "Y" 2
  ∧ decode_syndrome [1; 0; 1; 1; 0; 1] ≠ single "X" 2
  ∧ (∀ s, decode_syndrome s = single "X" 2 ↔ s = [0; 0; 0; 1; 0; 1])
  ∧ measured_last demo_x = true
  ∧ probability demo_x (syndrome_is [1; 0; 1; 1; 0; 1]) == 1 # 16
  ∧ probability demo_x (syndrome_is [0; 0; 0; 1; 0; 1]) == 1 # 16
  ∧ probability demo_x
      (fun shot => bool_decide (decode_syndrome (as_ints (take 6 shot))
                                = single "X" 2)) == 1 # 16
  ∧ decode_syndrome [1; 0; 0; 0; 0; 0] = single "Z" 3
  ∧ measured_last demo_z = true
  ∧ probability demo_z (syndrome_is [1; 0; 0; 0; 0; 0]) == 1 # 16
  ∧ decode_syndrome [0; 0; 0; 0; 0; 0] = NO_ERROR.
Proof.
  cbv zeta.
  split; [by vm_compute|]. split; [by vm_compute|].
  split.
  { intros s. split; [|by intros ->].
    intros Hd. unfold decode_syndrome in Hd.
    destruct (STEANE_SYNDROME_TABLE !! s) as [r|] eqn:Hs; [|done]. subst r.
    apply table_lookup_items in Hs.
    assert (Hall : Forall (fun kv : syndrome * (pyval * pyval) =>
              kv.2 = single "X" 2 → kv.1 = [0; 0; 0; 1; 0; 1])
              STEANE_SYNDROME_TABLE_items) by (repeat constructor; done).
    rewrite Forall_forall in Hall. by apply (Hall _ Hs). }
  split; [by vm_compute|]. split; [by vm_compute|]. split; [by vm_compute|].
  split; [by vm_compute|]. split; [by vm_compute|]. split; [by vm_compute|].
  split; by vm_compute.
Qed.

(** X15: noiseless rounds.  With noise level 0 the multi-round circuit
    holds no noise channel.  Every round of a shot repeats the syndrome of
    the first round; all syndrome bits are zero - the shots post-selection
    keeps - with probability 1/16; the final data bits are one of the
    listed codewords with probability 1/4, and with probability 1/2 among
    the shots post-selection keeps. *)
Theorem clean_rounds_statistics (rounds : nat) (Hr : (1 ≤ rounds ≤ 3)%nat) :
  let ops := ops_of (MultiRoundKernels.multi_round_qec rounds 0) in
  let c := gates_of ops in
  let data := py_slice (Some (Z.of_nat rounds * 6)) None in
  noise_of ops = []
  ∧ measured_last c = true
  ∧ Forall (fun shot => ∀ r, (r < rounds)%nat →
                        take 6 (drop (6 * r) shot) = take 6 shot)
           (possible_shots c)
  ∧ probability c (MultiRoundAnalysis.clean (Z.of_nat rounds)) == 1 # 16
  ∧ probability c (fun shot => MultiRoundAnalysis.is_codeword (data shot))
    == 1 # 4
  ∧ probability c (fun shot => MultiRoundAnalysis.clean (Z.of_nat rounds) shot
                               && MultiRoundAnalysis.is_codeword (data shot))
    == 1 # 32.
Proof.
  assert (Hcases : rounds ∈ seq 1 3) by (apply elem_of_seq; lia).
  cbv zeta.
  repeat (apply elem_of_cons in Hcases as [-> | Hcases]);
    try (by apply elem_of_nil in Hcases);
    (split; [by vm_compute|]; split; [by vm_compute|];
     match goal with
     | Hr : (1 ≤ ?n ≤ 3)%nat
       |- Forall _ (possible_shots ?c)
          ∧ probability _ ?t1 == ?q1 ∧ probability _ ?t2 == ?q2
          ∧ probability _ ?t3 == ?q3 =>
         destruct (statistics_by_evaluation c
           (fun shot => forallb (fun r =>
              bool_decide (take 6 (drop (6 * r) shot) = take 6 shot)) (seq 0 n))
           [(t1, q1); (t2, q2); (t3, q3)]) as [Hall Hprob];
           [by vm_compute|]
     end;
     split;
     [eapply Forall_impl; [exact Hall|];
      intros shot Hshot r Hr'; cbv beta in Hshot;
      rewrite forallb_forall in Hshot;
      eapply bool_decide_eq_true_1, Hshot, list_elem_of_In, elem_of_seq; lia
     |apply Forall_cons in Hprob as [H1 Hprob];
      apply Forall_cons in Hprob as [H2 Hprob];
      apply Forall_cons in Hprob as [H3 _];
      split; [exact H1|]; split; [exact H2 | exact H3]]).
Qed.

Lemma clean_rounds_statistics_witness :
  probability (gates_of (ops_of (MultiRoundKernels.multi_round_qec 3 0)))
    (MultiRoundAnalysis.clean 3) == 1 # 16.
Proof.
  assert (Hr : (1 ≤ 3 ≤ 3)%nat) by lia.
  exact (proj1 (proj2 (proj2 (proj2 (clean_rounds_statistics 3 Hr))))).
Defined.

(** X16: the flagged encoder.  Without its flag gadgets it is the
    optimized encoder, and a shot lists the three flags before the seven
    data bits.  Without noise the first flag never fires; the second and
    third fire together in half of the shots, so the flags are all zero
    with probability 1/2.  The data bits are a listed codeword with
    probability 1/4, among the shots with all flags zero as among all
    shots, against 1/2 for the encoder without flags. *)
Theorem flagged_encoder_statistics :
  let ops := ops_of EncodingKernels.flagged_steane_encoding_with_measure in
  let c := gates_of ops in
  let on_data g := forallb (fun q => if q is Data _ then true else false)
                           (gate_qubits g) in
  let flags_ok shot := all_zero (py_slice None (Some 3) shot) in
  let valid shot :=
    bool_decide (bitstring (py_slice (Some 3) None shot)
                 ∈ ImprovedEncoding.valid_codewords) in
  noise_of ops = []
  ∧ measured_last c = true
  ∧ filter (fun g => on_data g = true) c
    = ImprovedEncoding.optimized_steane_encoding_with_measure
  ∧ measured c = (Flag <$> seq 0 3) ++ (Data <$> seq 0 7)
  ∧ Forall (fun shot => take 3 shot = [false; false; false]
                        ∨ take 3 shot = [false; true; true])
           (possible_shots c)
  ∧ probability c flags_ok == 1 # 2
  ∧ probability c valid == 1 # 4
  ∧ probability c (fun shot => flags_ok shot && valid shot) == 1 # 8
  ∧ probability ImprovedEncoding.optimized_steane_encoding_with_measure
      (fun shot => bool_decide (bitstring shot ∈ ImprovedEncoding.valid_codewords))
    == 1 # 2.
Proof.
  cbv zeta.
  split; [by vm_compute|]. split; [by vm_compute|].
  split; [by vm_compute|]. split; [by vm_compute|].
  split; [refine (bool_decide_unpack _ _); by vm_compute|].
  split; [by vm_compute|]. split; [by vm_compute|].
  split; by vm_compute.
Qed.

(** X17: extraction without any error.  The syndrome measured on the
    freshly encoded state is all-zero - decoded as no error - in 1/16 of
    the shots; in 3/8 of them the decoder reports an uncorrectable
    pattern, and in the remaining 9/16 it names a single-qubit
    correction. *)
Theorem error_free_extraction_verdicts :
  let ops := ops_of full_syndrome_extraction in
  let c := gates_of ops in
  let verdict shot := decode_syndrome (as_ints (take 6 shot)) in
  let corrections :=
    k ← [PX; PY; PZ]; q ← seq 0 7; [single (pauli_name k) (Z.of_nat q)] in
  noise_of ops = []
  ∧ measured_last c = true
  ∧ syndrome_extraction_with_error (-1) "X" = Ok ops
  ∧ probability c (fun shot => bool_decide (verdict shot = NO_ERROR)) == 1 # 16
  ∧ probability c (fun shot => bool_decide (verdict shot = UNCORRECTABLE))
    == 3 # 8
  ∧ probability c
      (fun shot => bool_decide (verdict shot ∈ corrections)) == 9 # 16.
Proof.
  cbv zeta.
  split; [by vm_compute|]. split; [by vm_compute|]. split; [by vm_compute|].
  split; [by vm_compute|]. split; by vm_compute.
Qed.

End NoiselessStatistics.

(** ** Analysis of sampled shots *)

Section SampleAnalysis.
Import Samples MultiRoundAnalysis.

Lemma mapM_all_raise {A B} (f : A → result B) (e : exn) (l : list A) :
  (∀ x, f x = Raise e) → l ≠ [] → mapM f l = Raise e.
Proof. intros Hf Hl. destruct l as [|x l]; [done|]. simpl. by rewrite Hf. Qed.

Lemma mapM_all_ok {A B} (f : A → result B) (l : list A) :
  (∀ x, ∃ y, f x = Ok y) → ∃ ys, mapM f l = Ok ys.
Proof.
  intros Hf. induction l as [|x l [ys IH]]; simpl; [by eexists|].
  destruct (Hf x) as [y ->]. simpl. rewrite IH. by eexists.
Qed.

Lemma len_NdArray_pos (rows : list shot) : rows ≠ [] → 0 < len (NdArray rows).
Proof. intros Hne. unfold len. simpl. destruct rows; [done|]. simpl. lia. Qed.

Lemma div_counts_zero x : div_counts x 0 = Raise ZeroDivisionError.
Proof. done. Qed.

Lemma div_counts_pos x y : 0 < y → div_counts x y = Ok (inject_Z x / inject_Z y)%Q.
Proof.
  intros Hy. unfold div_counts. apply py_div_pos.
  unfold Qlt, inject_Z. simpl. lia.
Qed.

Lemma count_if_bounds {A} (test : A → bool) (l : list A) :
  0 ≤ count_if test l ≤ Z.of_nat (length l).
Proof.
  unfold count_if. pose proof (length_filter (fun x => test x = true) l). lia.
Qed.

Lemma fraction_bounds (x y : Z) :
  0 ≤ x ≤ y → 0 < y → (0 <= inject_Z x / inject_Z y <= 1)%Q.
Proof.
  intros Hx Hy.
  assert (Hy' : (0 < inject_Z y)%Q) by (unfold Qlt, inject_Z; simpl; lia).
  split.
  - apply Qle_shift_div_l; [done|]. rewrite Qmult_0_l.
    unfold Qle, inject_Z. simpl. lia.
  - apply Qle_shift_div_r; [done|]. rewrite Qmult_1_l.
    unfold Qle, inject_Z. simpl. lia.
Qed.

Lemma count_if_fmap {A B} (f : A → B) (test : B → bool) (l : list A) :
  count_if test (f <$> l) = count_if (test ∘ f) l.
Proof.
  unfold count_if. do 2 f_equal.
  induction l as [|x l IH]; [done|].
  rewrite fmap_cons, !filter_cons. simpl.
  destruct (decide (test (f x) = true)); simpl; by rewrite IH.
Qed.

Lemma analyze_list rows num_rounds :
  analyze_multi_round_results (PyList rows) num_rounds = Raise TypeError.
Proof. done. Qed.

Lemma analyze_empty num_rounds :
  analyze_multi_round_results (NdArray []) num_rounds = Raise ZeroDivisionError.
Proof.
  unfold analyze_multi_round_results. simpl.
  destruct (seqZ 0 num_rounds) as [|r rs]; done.
Qed.

Lemma analyze_array rows num_rounds :
  rows ≠ [] →
  analyze_multi_round_results (NdArray rows) num_rounds
  = Ok (valid_fraction rows num_rounds).
Proof.
  intros Hne. pose proof (len_NdArray_pos rows Hne) as Hlen.
  unfold analyze_multi_round_results. simpl.
  match goal with
  | |- context [mapM ?f ?l] => destruct (mapM_all_ok f l) as [ys ->]
  end.
  { intros x. rewrite div_counts_pos by done. by eexists. }
  simpl. rewrite div_counts_pos by done.
  unfold valid_fraction. by rewrite count_if_fmap.
Qed.

Lemma mapM_Ok_length {A B} (f : A → result B) (l : list A) (ys : list B) :
  mapM f l = Ok ys → length ys = length l.
Proof.
  revert ys. induction l as [|x l IH]; intros ys; simpl.
  - by intros [= <-].
  - destruct (f x) as [y|]; simpl; [|done].
    destruct (mapM f l) as [ys'|]; simpl; [|done].
    intros [= <-]. simpl. by rewrite (IH ys').
Qed.

Lemma mapM_cons_Ok {A B} (f : A → result B) x l y ys :
  f x = Ok y → mapM f l = Ok ys → mapM f (x :: l) = Ok (y :: ys).
Proof. intros Hx Hl. simpl. by rewrite Hx, Hl. Qed.

Lemma selected_rows_from (f : shot → shot) (pre rows : list shot) (k : nat) :
  length pre = k →
  mapM (getitem (pre ++ rows))
       ((filter (fun ix : nat * shot => all_zero ix.2 = true)
                (imap (fun i x => ((k + i)%nat, x)) (f <$> rows))).*1)
  = Ok (filter (fun row => all_zero (f row) = true) rows).
Proof.
  revert pre k. induction rows as [|row rows IH]; intros pre k Hk; [done|].
  rewrite fmap_cons, imap_cons.
  assert (Hrest :
    mapM (getitem (pre ++ row :: rows))
      ((filter (fun ix : nat * shot => all_zero ix.2 = true)
         (imap ((fun i x => ((k + i)%nat, x)) ∘ S) (f <$> rows))).*1)
    = Ok (filter (fun row => all_zero (f row) = true) rows)).
  { rewrite (imap_ext _ (fun i x => ((S k + i)%nat, x)))
      by (intros; simpl; f_equal; lia).
    rewrite cons_middle, app_assoc. apply IH. rewrite length_app. simpl. lia. }
  destruct (decide (all_zero (f row) = true)) as [Hz|Hz].
  - rewrite !filter_cons_True by exact Hz. rewrite fmap_cons.
    apply mapM_cons_Ok; [|exact Hrest].
    unfold getitem. simpl. by rewrite Nat.add_0_r, <- Hk, list_lookup_middle.
  - rewrite !filter_cons_False by exact Hz. exact Hrest.
Qed.

Lemma selected_rows (f : shot → shot) (rows : list shot) :
  mapM (getitem rows) (selected_indices (f <$> rows))
  = Ok (filter (fun row => all_zero (f row) = true) rows).
Proof. exact (selected_rows_from f [] rows 0 eq_refl). Qed.

Lemma py_slice_to_0 {A} (l : list A) : py_slice None (Some 0) l = [].
Proof.
  unfold py_slice, slice_bound. simpl.
  by replace (Z.to_nat (Z.min (Z.of_nat (length l)) (Z.max 0 0)) - 0)%nat
    with 0%nat by lia.
Qed.

Lemma post_select_array (rows : list shot) (num_rounds : Z) :
  post_select_on_syndromes (NdArray rows) num_rounds
  = Ok (let kept := filter (fun row => clean num_rounds row = true) rows in
        if bool_decide (kept = []) then NdArray [] else PyList kept).
Proof.
  cbv zeta.
  unfold post_select_on_syndromes. simpl.
  set (kept := filter (fun row => clean num_rounds row = true) rows).
  assert (Hsel : mapM (getitem rows)
            (selected_indices
               (py_slice None (Some (num_rounds * syndromes_per_round)) <$> rows))
          = Ok kept) by apply selected_rows.
  pose proof (mapM_Ok_length _ _ _ Hsel) as Hlen.
  rewrite Hsel, <- Hlen.
  rewrite py_slice_to_0.
  destruct kept as [|row kept'] eqn:Hkept; [done|].
  rewrite bool_decide_eq_false_2 by done.
  rewrite (bool_decide_eq_false_2 (_ :: _ = [])) by done.
  assert (Hne : rows ≠ []) by (intros ->; done).
  destruct rows as [|r0 rows]; [done|].
  unfold getitem. simpl lookup. unfold mbind, result_bind. cbv beta iota.
  rewrite div_counts_pos; [done|]. unfold len. simpl. lia.
Qed.

(** X18: post-selection on an array keeps exactly the shots whose
    syndrome columns are all zero, unchanged and in their order.  The
    result is a Python list of rows when a shot is kept and an empty array
    when none is; a Python list as input raises TypeError. *)
Theorem post_select_keeps_clean_shots (rows : list shot) (num_rounds : Z) :
  (∃ selected,
      post_select_on_syndromes (NdArray rows) num_rounds = Ok selected
      ∧ rows_of selected = filter (fun row => clean num_rounds row = true) rows
      ∧ match selected with
        | NdArray _ => Forall (fun row => clean num_rounds row = false) rows
        | PyList _ => Exists (fun row => clean num_rounds row = true) rows
        end)
  ∧ post_select_on_syndromes (PyList rows) num_rounds = Raise TypeError.
Proof.
  split; [|done]. eexists. split; [apply post_select_array|]. cbv zeta.
  set (kept := filter (fun row => clean num_rounds row = true) rows).
  destruct kept as [|row kept'] eqn:Hkept.
  - rewrite bool_decide_eq_true_2 by done. split; [done|].
    apply Forall_forall. intros row Hrow.
    destruct (clean num_rounds row) eqn:Hclean; [|done].
    assert (Hin : row ∈ kept) by (by apply list_elem_of_filter).
    rewrite Hkept in Hin. by apply elem_of_nil in Hin.
  - rewrite bool_decide_eq_false_2 by done. split; [done|].
    apply Exists_exists. exists row.
    assert (Hin : row ∈ kept) by (rewrite Hkept; left).
    apply list_elem_of_filter in Hin as [Hclean Hin]. done.
Qed.

(** X19: the post-selection test never reports an improvement.  On the
    array of sampled shots it raises ZeroDivisionError when there is no
    shot, prints that no shot passed when no shot has all syndromes zero,
    and otherwise raises TypeError: the list of kept rows cannot be sliced
    by the analysis. *)
Theorem post_selection_test_never_reports (rows : list shot) :
  test_post_selection (NdArray rows)
  = (if bool_decide (rows = []) then Raise ZeroDivisionError
     else if bool_decide (Forall (fun row => clean 3 row = false) rows)
          then Ok None
          else Raise TypeError)
  ∧ ∀ improvement, test_post_selection (NdArray rows) ≠ Ok (Some improvement).
Proof.
  assert (Heq : test_post_selection (NdArray rows)
    = (if bool_decide (rows = []) then Raise ZeroDivisionError
       else if bool_decide (Forall (fun row => clean 3 row = false) rows)
            then Ok None
            else Raise TypeError)).
  { unfold test_post_selection.
    destruct (decide (rows = [])) as [->|Hne]; [done|].
    rewrite (bool_decide_eq_false_2 (rows = [])) by done.
    rewrite analyze_array, post_select_array by done.
    unfold mbind, result_bind. cbv beta iota zeta.
    set (kept := filter (fun row => clean 3 row = true) rows).
    destruct kept as [|row kept'] eqn:Hkept.
    - rewrite (bool_decide_eq_true_2 ([] = [])) by done.
      rewrite bool_decide_eq_true_2; [done|].
      apply Forall_forall. intros row Hrow.
      destruct (clean 3 row) eqn:Hclean; [|done].
      assert (Hin : row ∈ kept) by (by apply list_elem_of_filter).
      rewrite Hkept in Hin. by apply elem_of_nil in Hin.
    - rewrite (bool_decide_eq_false_2 (_ :: _ = [])) by done.
      rewrite bool_decide_eq_false_2.
      + unfold len. simpl rows_of.
        destruct (Z.ltb_spec 0 (Z.of_nat (length (row :: kept'))))
          as [_|Hge]; [done|].
        simpl length in Hge. lia.
      + intros Hall. assert (Hin : row ∈ kept) by (rewrite Hkept; left).
        apply list_elem_of_filter in Hin as [Hclean Hin].
        rewrite Forall_forall in Hall. specialize (Hall row Hin). congruence. }
  split; [exact Heq|]. intros improvement. rewrite Heq.
  repeat case_bool_decide; done.
Qed.

(** X20: the analysis of a multi-round sample.  A Python list raises
    TypeError and an array without shots ZeroDivisionError, for every
    number of rounds; on an array with shots it returns the fraction of
    the shots whose bits after the first 6 * num_rounds columns spell a
    listed codeword, a number between 0 and 1. *)
Theorem analyze_multi_round_results_cases (s : samples) (num_rounds : Z) :
  match s with
  | PyList _ => analyze_multi_round_results s num_rounds = Raise TypeError
  | NdArray [] =>
      analyze_multi_round_results s num_rounds = Raise ZeroDivisionError
  | NdArray rows =>
      analyze_multi_round_results s num_rounds
      = Ok (valid_fraction rows num_rounds)
      ∧ (0 <= valid_fraction rows num_rounds <= 1)%Q
  end.
Proof.
  destruct s as [[|row rows]|rows];
    [apply analyze_empty | | apply analyze_list].
  split; [by apply analyze_array|].
  apply fraction_bounds; [apply count_if_bounds | simpl; lia].
Qed.

Lemma codeword_sets_agree :
  ScalingMeasurement.steane_zero_codewords = MultiRoundQec.steane_zero_codewords.
Proof. reflexivity. Qed.

(** X21: the logical error rate of segment 3.2 is the complement of the
    fidelity of segment 2.3.  On the same non-empty array of shots, with
    [shots] the number of its rows, both functions return, the error rate
    is 1 minus the fidelity, and it lies between 0 and 1. *)
Theorem logical_error_rate_complements_fidelity
    (rows : list shot) (rounds shots : Z)
    (Hshots : shots = Z.of_nat (length rows)) (Hne : rows ≠ []) :
  ∃ e f,
    ScalingMeasurement.measure_logical_error_rate (NdArray rows) rounds shots
    = Ok e
    ∧ analyze_multi_round_results (NdArray rows) rounds = Ok f
    ∧ (e == 1 - f)%Q ∧ (0 <= e <= 1)%Q.
Proof.
  pose proof (len_NdArray_pos rows Hne) as Hlen. unfold len in Hlen. simpl in Hlen.
  exists (1 - valid_fraction rows rounds)%Q, (valid_fraction rows rounds).
  split.
  - unfold ScalingMeasurement.measure_logical_error_rate. simpl.
    rewrite div_counts_pos by lia. simpl.
    rewrite count_if_fmap, codeword_sets_agree, Hshots. done.
  - split; [by apply analyze_array|]. split; [done|].
    pose proof (fraction_bounds
      (count_if (fun row => is_codeword
         (py_slice (Some (rounds * syndromes_per_round)) None row)) rows)
      (Z.of_nat (length rows)) (count_if_bounds _ _) Hlen) as [Hlo Hhi].
    fold (valid_fraction rows rounds) in Hlo, Hhi.
    split; lra.
Qed.

Lemma logical_error_rate_complements_fidelity_witness :
  ∃ e f,
    ScalingMeasurement.measure_logical_error_rate
      (NdArray [[false; false; false; false; false; false;
                 true; false; true; true; false; true; false];
                [true; false; false; false; false; false;
                 false; false; false; false; false; false; false]]) 1 2 = Ok e
    ∧ analyze_multi_round_results
        (NdArray [[false; false; false; false; false; false;
                   true; false; true; true; false; true; false];
                  [true; false; false; false; false; false;
                   false; false; false; false; false; false; false]]) 1 = Ok f
    ∧ (e == 1 - f)%Q.
Proof.
  destruct (logical_error_rate_complements_fidelity
    [[false; false; false; false; false; false;
      true; false; true; true; false; true; false];
     [true; false; false; false; false; false;
      false; false; false; false; false; false; false]] 1 2 eq_refl)
    as (e & f & He & Hf & Hef & _); [discriminate|].
  exists e, f. split; [exact He|]. split; [exact Hf | exact Hef].
Defined.

(** *** The syndrome histogram of segment 2.2 *)

Import ExtractionAnalysis.

Lemma bump_lookup d k key :
  default 0 (bump d k !! key)
  = default 0 (d !! key) + (if bool_decide (k = key) then 1 else 0).
Proof.
  unfold bump. case_bool_decide as Hk.
  - subst. by rewrite lookup_insert_eq.
  - rewrite lookup_insert_ne by done. lia.
Qed.

Lemma bump_positive d k :
  (∀ key n, d !! key = Some n → 0 < n) →
  ∀ key n, bump d k !! key = Some n → 0 < n.
Proof.
  intros Hd key n. unfold bump.
  destruct (decide (k = key)) as [->|Hne].
  - rewrite lookup_insert_eq. intros [= <-].
    destruct (d !! key) as [m|] eqn:Hm; simpl; [|lia].
    specialize (Hd key m Hm). lia.
  - rewrite lookup_insert_ne by done. apply Hd.
Qed.

Lemma bump_total d k : total (bump d k) = total d + 1.
Proof.
  unfold total, bump.
  destruct (d !! k) as [m|] eqn:Hm; simpl.
  - rewrite <- insert_delete_eq.
    rewrite map_fold_insert_L; [|intros; lia|apply lookup_delete_eq].
    rewrite (map_fold_delete_L _ _ k m d); [lia|intros; lia|done].
  - rewrite map_fold_insert_L; [lia|intros; lia|done].
Qed.

Lemma histogram_lookup keys d key :
  default 0 (foldl bump d keys !! key)
  = default 0 (d !! key) + count_if (fun k => bool_decide (k = key)) keys.
Proof.
  revert d. induction keys as [|k keys IH]; intros d; simpl.
  - unfold count_if. simpl. lia.
  - rewrite IH, bump_lookup. unfold count_if. rewrite filter_cons. simpl.
    case_bool_decide; destruct (decide _); simpl; try done; lia.
Qed.

Lemma histogram_positive keys d :
  (∀ key n, d !! key = Some n → 0 < n) →
  ∀ key n, foldl bump d keys !! key = Some n → 0 < n.
Proof.
  revert d. induction keys as [|k keys IH]; intros d Hd; simpl; [done|].
  apply IH. by apply bump_positive.
Qed.

Lemma histogram_total keys d :
  total (foldl bump d keys) = total d + Z.of_nat (length keys).
Proof.
  revert d. induction keys as [|k keys IH]; intros d; simpl; [lia|].
  rewrite IH, bump_total. lia.
Qed.

(** X22: the syndrome histogram.  A Python list raises TypeError and an
    array without shots ZeroDivisionError.  On an array with shots the
    returned dict gives, for every 6-character string, the number of shots
    whose first six bits spell it; it holds no entry with a count of zero
    or less, and its counts add up to the number of shots. *)
Theorem analyze_syndromes_histogram (s : samples) :
  match s with
  | PyList _ => analyze_syndromes s = Raise TypeError
  | NdArray [] => analyze_syndromes s = Raise ZeroDivisionError
  | NdArray rows =>
      ∃ counts,
        analyze_syndromes s = Ok counts
        ∧ (∀ key, default 0 (counts !! key)
                  = count_if (fun row => bool_decide
                       (bitstring (py_slice None (Some 6) row) = key)) rows)
        ∧ (∀ key n, counts !! key = Some n → 0 < n)
        ∧ total counts = Z.of_nat (length rows)
  end.
Proof.
  destruct s as [[|row rows]|rows]; [done| |done].
  assert (Hlen : 0 < len (NdArray (row :: rows))) by (by apply len_NdArray_pos).
  generalize dependent (row :: rows). clear row rows. intros rows Hlen.
  unfold analyze_syndromes.
  unfold columns, mbind, result_bind. cbv beta iota zeta.
  rewrite div_counts_pos by done.
  eexists. split; [reflexivity|]. split; [|split].
  - intros key. rewrite histogram_lookup, lookup_empty. simpl.
    rewrite <- list_fmap_compose, count_if_fmap. done.
  - apply histogram_positive. intros key n. by rewrite lookup_empty.
  - rewrite histogram_total, length_fmap, length_fmap. unfold total.
    by rewrite map_fold_empty.
Qed.

End SampleAnalysis.

(** ** Degenerate sweeps of the scaling analysis *)

Section DegenerateSweeps.
Import ErrorScaling.
Local Open Scope Q_scope.

Lemma py_sum_replicate (n : nat) (x : Q) :
  py_sum (replicate n x) == inject_Z (Z.of_nat n) * x.
Proof.
  induction n as [|n IH]; [by vm_compute|].
  simpl replicate. rewrite py_sum_cons, IH.
  rewrite Nat2Z.inj_succ, <- Z.add_1_r, inject_Z_plus. ring.
Qed.

Lemma py_sum_zero_terms {A} (f : A → Q) (l : list A) :
  (∀ x, x ∈ l → f x == 0) → py_sum (f <$> l) == 0.
Proof.
  intros Hf. rewrite (py_sum_fmap_ext f (fun _ => 0 * 0)) by
    (intros x Hx; rewrite (Hf x Hx); ring).
  rewrite (py_sum_fmap_scale 0 (fun _ => 0)). ring.
Qed.

(** On abscissas that are all the same the denominator of the slope is
    zero in exact arithmetic, and the slope is set to 1. *)
Lemma linear_regression_constant (n : nat) (x : Q) (ys : list Q) :
  (1 ≤ n)%nat →
  ∃ log_a, linear_regression (replicate n x) ys = Ok (1, log_a).
Proof.
  intros Hn. unfold linear_regression. rewrite length_replicate.
  set (m := inject_Z (Z.of_nat n)).
  assert (Hm : ¬ m == 0) by (unfold m, Qeq; simpl; lia).
  rewrite !py_div_nonzero by done. unfold mbind, result_bind. cbv beta iota.
  set (mx := py_sum (replicate n x) / m).
  assert (Hmx : mx == x).
  { unfold mx. rewrite py_sum_replicate. fold m. by field. }
  assert (HD : py_sum ((fun x' : Q => (x' - mx) ^ 2) <$> replicate n x) == 0).
  { apply py_sum_zero_terms. intros x' Hx'%elem_of_replicate.
    destruct Hx' as [-> _]. rewrite Hmx. simpl. ring. }
  apply Qeq_bool_iff in HD. rewrite HD. cbn [negb].
  by eexists.
Qed.

(** X23: a sweep of one point, or of two points at the same physical
    error rate.  The logarithms of the physical rates are equal and their
    mean is that logarithm itself, so the regression has no slope to fit:
    the exponent is set to 1 and, unless the exponential of the intercept
    overflows, the report reads "no QEC benefit", whatever the logical
    error rates are. *)
Theorem short_constant_sweep_reads_no_benefit
    (math_log : Q → Q) (math_exp : Q → option Q)
    (p : Q) (n : nat) (ls : list Q)
    (Hn : n = 1%nat ∨ n = 2%nat) (Hp : 0 < p)
    (Hls : Forall (fun l => 0 < l) ls) :
  (∃ log_a, linear_regression (math_log <$> replicate n p) (math_log <$> ls)
            = Ok (1, log_a))
  ∧ (plot_error_scaling math_log math_exp (replicate n p) ls
     = Raise OverflowError
     ∨ ∃ r, plot_error_scaling math_log math_exp (replicate n p) ls = Ok r
            ∧ power r = 1 ∧ verdict r = NoBenefit)
  ∧ ((∀ x, is_Some (math_exp x)) →
     ∃ r, plot_error_scaling math_log math_exp (replicate n p) ls = Ok r
          ∧ power r = 1 ∧ verdict r = NoBenefit).
Proof.
  assert (Hn1 : (1 ≤ n)%nat) by lia.
  assert (Hps : Forall (fun x => 0 < x) (replicate n p)).
  { apply Forall_forall. by intros x [-> _]%elem_of_replicate. }
  destruct (linear_regression_constant n (math_log p) (math_log <$> ls) Hn1)
    as [log_a Hfit].
  assert (Hplot : ∀ a, math_exp log_a = Some a →
    ∃ r, plot_error_scaling math_log math_exp (replicate n p) ls = Ok r
         ∧ power r = 1 ∧ verdict r = NoBenefit).
  { intros a Ha. unfold plot_error_scaling. rewrite data_table_total.
    rewrite (log_list_positive math_log (replicate n p)),
            (log_list_positive math_log ls) by done.
    cbn [mbind result_bind]. rewrite fmap_replicate, Hfit.
    cbn [mbind result_bind snd]. rewrite (_exp_Some math_exp log_a a Ha).
    cbn [mbind result_bind].
    rewrite !threshold_rows_total by apply Forall_filter_keep, zip_positive, Hps.
    cbn [mbind result_bind mret result_ret].
    eexists. split; [reflexivity|]. by split. }
  split; [|split].
  - exists log_a. by rewrite fmap_replicate.
  - destruct (math_exp log_a) as [a|] eqn:Ha; [right; by apply (Hplot a)|].
    left. unfold plot_error_scaling. rewrite data_table_total.
    rewrite (log_list_positive math_log (replicate n p)),
            (log_list_positive math_log ls) by done.
    cbn [mbind result_bind]. rewrite fmap_replicate, Hfit.
    cbn [mbind result_bind snd]. by rewrite (_exp_None math_exp log_a Ha).
  - intros Hexp. destruct (Hexp log_a) as [a Ha]. by apply (Hplot a).
Qed.

Lemma short_constant_sweep_reads_no_benefit_witness :
  ∃ r, plot_error_scaling log2_exact exp2_exact [1 # 2; 1 # 2] [1 # 8; 1 # 4]
       = Ok r
       ∧ power r = 1 ∧ verdict r = NoBenefit.
Proof.
  assert (Hn : 2%nat = 1%nat ∨ 2%nat = 2%nat) by (right; reflexivity).
  assert (Hp : 0 < 1 # 2) by reflexivity.
  assert (Hls : Forall (fun l => 0 < l) [1 # 8; 1 # 4]) by (by repeat constructor).
  assert (Hexp : ∀ x, is_Some (exp2_exact x)) by (intros x; by eexists).
  exact (proj2 (proj2 (short_constant_sweep_reads_no_benefit
                  log2_exact exp2_exact (1 # 2) 2 [1 # 8; 1 # 4] Hn Hp Hls))
           Hexp).
Defined.

Lemma positive_or_not (ls : list Q) :
  forallb (Qltb 0) ls = true ∧ Forall (fun l => 0 < l) ls
  ∨ forallb (Qltb 0) ls = false ∧ Exists (fun l => l <= 0) ls.
Proof.
  induction ls as [|l ls IH]; [left; by split|]. simpl.
  destruct (Qltb 0 l) eqn:E.
  - apply Qltb_lt in E. destruct IH as [[-> Hall] | [-> Hex]].
    + left. split; [done|]. by constructor.
    + right. split; [done|]. by right.
  - apply Qltb_ge in E. right. split; [done|]. by left.
Qed.

(** X24: a sweep without points never returns a report.  With no
    physical error rate the mean of the logarithms divides by zero; a
    logical error rate that is not positive stops the analysis before
    that, at its logarithm. *)
Theorem empty_sweep_raises
    (math_log : Q → Q) (math_exp : Q → option Q) (ls : list Q) :
  plot_error_scaling math_log math_exp [] ls
  = Raise (if forallb (Qltb 0) ls then ZeroDivisionError else ValueError).
Proof.
  unfold plot_error_scaling.
  destruct (positive_or_not ls) as [[-> Hall] | [-> Hex]].
  - by rewrite (log_list_positive math_log ls).
  - by rewrite (log_list_nonpositive math_log ls).
Qed.








End DegenerateSweeps.

(** ** Counting rounds *)

Section RoundCounting.
Import Samples DecodingAnalysis.

Lemma count_round_steps (step : Z * Z → Z → bool) (rs : list Z) (acc : Z * Z) :
  let res := foldl (fun counters r =>
                      if step counters r
                      then (counters.1 + 1, counters.2)
                      else (counters.1, counters.2 + 1)) acc rs in
  res.1 + res.2 = acc.1 + acc.2 + Z.of_nat (length rs)
  ∧ acc.1 ≤ res.1 ∧ acc.2 ≤ res.2.
Proof.
  cbv zeta. revert acc. induction rs as [|r rs IH]; intros acc; simpl; [lia|].
  destruct (step acc r);
    match goal with |- context [foldl _ ?a rs] => specialize (IH a) end;
    simpl in IH; lia.
Qed.

Lemma count_rounds_from (results : list shot) (num_rounds : Z) (acc : Z * Z) :
  0 ≤ num_rounds →
  let res := foldl (fun counters shot =>
           let syndromes := py_slice None (Some (num_rounds * 6)) shot in
           foldl (fun counters r =>
                    let round_syndrome :=
                      py_slice (Some (r * 6)) (Some ((r + 1) * 6)) syndromes in
                    if any_set round_syndrome
                    then (counters.1 + 1, counters.2)
                    else (counters.1, counters.2 + 1))
                 counters (seqZ 0 num_rounds)) acc results in
  res.1 + res.2 = acc.1 + acc.2 + Z.of_nat (length results) * num_rounds
  ∧ acc.1 ≤ res.1 ∧ acc.2 ≤ res.2.
Proof.
  intros Hn. cbv zeta. revert acc.
  induction results as [|shot results IH]; intros acc; simpl foldl; [simpl; lia|].
  match goal with |- context [foldl _ (foldl ?f acc ?rs) results] =>
    specialize (IH (foldl f acc rs));
    pose proof (count_round_steps
      (fun _ r => any_set (py_slice (Some (r * 6)) (Some ((r + 1) * 6))
                     (py_slice None (Some (num_rounds * 6)) shot))) rs acc) as Hin
  end.
  cbv zeta in Hin. rewrite length_seqZ in Hin.
  cbv beta zeta in IH. simpl length. lia.
Qed.

(** X26: the round counters of the multi-round analysis.  For a number
    of rounds that is not negative every round of every shot is counted
    once, as a round with a detection or as a clean round: the two
    counters are not negative and add up to the number of shots times the
    number of rounds.  With [shots] the number of shots sampled, the
    analysis of a noise level raises ZeroDivisionError when there is no
    shot or no round, and returns otherwise, however the bits of a row
    are printed. *)
Theorem round_counters_partition
    (join_str : shot → string) (results : list shot) (num_rounds shots : Z)
    (Hrounds : 0 ≤ num_rounds) (Hshots : shots = Z.of_nat (length results)) :
  let counters := count_rounds results num_rounds in
  0 ≤ counters.1 ∧ 0 ≤ counters.2
  ∧ counters.1 + counters.2 = shots * num_rounds
  ∧ analyze_multi_round_syndromes join_str results num_rounds shots
    = if bool_decide (shots * num_rounds = 0) then Raise ZeroDivisionError
      else Ok counters.
Proof.
  cbv zeta.
  pose proof (count_rounds_from results num_rounds (0, 0) Hrounds) as Hc.
  cbv zeta in Hc. fold (count_rounds results num_rounds) in Hc. simpl in Hc.
  split; [lia|]. split; [lia|]. split; [lia|].
  unfold analyze_multi_round_syndromes. cbv zeta.
  case_bool_decide as Hz.
  - by rewrite Hz.
  - assert (0 < shots * num_rounds) by lia.
    assert (0 < shots) by lia.
    by rewrite !div_counts_pos.
Qed.

Lemma round_counters_partition_witness :
  count_rounds [[true; false; false; false; false; false;
                 false; false; false; false; false; false;
                 false; false; false; false; false; false; false]] 2
  = (1, 1)
  ∧ analyze_multi_round_syndromes bitstring
      [[true; false; false; false; false; false;
        false; false; false; false; false; false;
        false; false; false; false; false; false; false]] 2 1
    = Ok (1, 1).
Proof.
  assert (Hrounds : 0 ≤ 2) by lia.
  split; [reflexivity|].
  exact (proj2 (proj2 (proj2 (round_counters_partition bitstring
    [[true; false; false; false; false; false;
      false; false; false; false; false; false;
      false; false; false; false; false; false; false]] 2 1 Hrounds eq_refl)))).
Defined.

End RoundCounting.
